(** * Study-guide RAG pipeline: a shallow embedding of the scripts

    The five scripts under [scripts/] are embedded as Rocq functions, one
    module per script, preceded by a module [Py] for the Python built-ins
    they call.  External services (the embedding and generation APIs, the
    JSON decoder, [uuid4], the scheduler behind [asyncio.gather]) appear as
    explicit oracle arguments: every theorem holds for all their answers.

    Characters are 8-bit code points ([ascii]); the Python character classes
    are written out for the code points below 256. *)

From Stdlib Require Import ZArith Ascii String List Lia Permutation DecimalString.
From stdpp Require Import base list sorting gmap strings.

Local Open Scope Z_scope.

(** ** Python built-ins *)

Module Py.

Definition str := list ascii.

(** A string literal as a [str]. *)
Definition lit (s : string) : str := list_ascii_of_string s.

Definition code (c : ascii) : N := N_of_ascii c.

(** [len(s)] *)
Definition len {A} (s : list A) : Z := Z.of_nat (length s).

(** Truth value of a sequence: empty is false. *)
Definition truthy {A} (s : list A) : bool :=
  match s with [] => false | _ :: _ => true end.

(** [c.isspace()], which is also what [str.strip()] removes and what the
    regular-expression class [\s] matches. *)
Definition isspace (c : ascii) : bool :=
  let n := code c in
  ((9 <=? n) && (n <=? 13) || (28 <=? n) && (n <=? 32)
   || (n =? 133) || (n =? 160))%N.

(** Characters at which [str.splitlines()] ends a line. *)
Definition islinebreak (c : ascii) : bool :=
  let n := code c in
  ((10 <=? n) && (n <=? 13) || (28 <=? n) && (n <=? 30) || (n =? 133))%N.

(** [c.isalnum()] *)
Definition isalnum (c : ascii) : bool :=
  let n := code c in
  ((48 <=? n) && (n <=? 57) || (65 <=? n) && (n <=? 90)
   || (97 <=? n) && (n <=? 122)
   || (n =? 170) || (n =? 178) || (n =? 179) || (n =? 181)
   || (n =? 185) || (n =? 186) || (188 <=? n) && (n <=? 190)
   || (192 <=? n) && (n <=? 214) || (216 <=? n) && (n <=? 246)
   || (248 <=? n))%N.

(** [c.lower()] *)
Definition lower_char (c : ascii) : ascii :=
  let n := code c in
  if ((65 <=? n) && (n <=? 90)
      || (192 <=? n) && (n <=? 222) && negb (n =? 215))%N
  then ascii_of_N (n + 32) else c.

Definition lower (s : str) : str := map lower_char s.

Fixpoint lstrip_by (p : ascii -> bool) (s : str) : str :=
  match s with
  | [] => []
  | c :: s' => if p c then lstrip_by p s' else s
  end.

Definition rstrip_by (p : ascii -> bool) (s : str) : str :=
  rev (lstrip_by p (rev s)).

Definition strip_by (p : ascii -> bool) (s : str) : str :=
  rstrip_by p (lstrip_by p s).

(** [s.strip()] *)
Definition strip (s : str) : str := strip_by isspace s.

(** [s.strip(chars)] *)
Definition strip_chars (chars : str) (s : str) : str :=
  strip_by (fun c => existsb (Ascii.eqb c) chars) s.

(** Bound of a slice: a negative index counts from the end, and the result
    is clamped to [0, n]. *)
Definition slice_index (n i : Z) : Z :=
  let j := if i <? 0 then i + n else i in
  Z.max 0 (Z.min n j).

(** [s[lo:hi]] *)
Definition slice {A} (s : list A) (lo hi : Z) : list A :=
  let a := slice_index (len s) lo in
  let b := slice_index (len s) hi in
  take (Z.to_nat (b - a)) (drop (Z.to_nat a) s).

(** [a == b] *)
Fixpoint str_eqb (a b : str) : bool :=
  match a, b with
  | [], [] => true
  | c :: a', d :: b' => Ascii.eqb c d && str_eqb a' b'
  | _, _ => false
  end.

(** [s.startswith(p)] *)
Fixpoint startswith (s p : str) : bool :=
  match p, s with
  | [], _ => true
  | _ :: _, [] => false
  | c :: p', d :: s' => Ascii.eqb c d && startswith s' p'
  end.

(** [sub in s] *)
Fixpoint contains (s sub : str) : bool :=
  startswith s sub ||
  match s with
  | [] => false
  | _ :: s' => contains s' sub
  end.

(** [s.find(sub)], with -1 when [sub] does not occur. *)
Fixpoint find (s sub : str) : Z :=
  if startswith s sub then 0
  else match s with
       | [] => -1
       | _ :: s' => let r := find s' sub in if r <? 0 then -1 else r + 1
       end.

(** [s.rfind(sub)]: the highest index at which [sub] starts, or -1. *)
Fixpoint rfind (s sub : str) : Z :=
  match s with
  | [] => if startswith [] sub then 0 else -1
  | _ :: s' =>
      let r := rfind s' sub in
      if 0 <=? r then r + 1
      else if startswith s sub then 0 else -1
  end.

(** [s.splitlines()[0]] for a non-empty [s]: the text before the first line
    boundary. *)
Fixpoint first_line (s : str) : str :=
  match s with
  | [] => []
  | c :: s' => if islinebreak c then [] else c :: first_line s'
  end.

(** [s.replace(old, empty)] for a non-empty [old]: the occurrences of [old],
    leftmost first and not overlapping, are removed.  [skip] counts the
    characters of an occurrence still to be passed over. *)
Fixpoint remove_all_aux (old s : str) (skip : nat) : str :=
  match s with
  | [] => []
  | c :: s' =>
      match skip with
      | S k => remove_all_aux old s' k
      | O =>
          if startswith s old
          then remove_all_aux old s' (length old - 1)%nat
          else c :: remove_all_aux old s' 0
      end
  end.

Definition remove_all (old s : str) : str := remove_all_aux old s 0.

(** [sep.join(parts)] *)
Fixpoint join (sep : str) (parts : list str) : str :=
  match parts with
  | [] => []
  | [p] => p
  | p :: rest => p ++ sep ++ join sep rest
  end.

End Py.

(** ** scripts/indexer_vision.py *)

Module indexer_vision.
Import Py.

Definition CHUNK_SIZE : Z := 1000.
Definition CHUNK_OVERLAP : Z := 200.
Definition CHROMA_BATCH_SIZE : nat := 100.

(** The [while] loop of [recursive_character_text_splitter].  One unit of
    fuel is one test of the loop condition; [None] means the fuel ran out
    before the loop ended. *)
Fixpoint splitter_loop (fuel : nat) (text : str) (chunk_size chunk_overlap : Z)
    (chunks : list str) (start_index : Z) : option (list str) :=
  match fuel with
  | O => None
  | S fuel' =>
      if start_index <? len text then
        let end_index := Z.min (start_index + chunk_size) (len text) in
        let chunks := chunks ++ [slice text start_index end_index] in
        let start_index := start_index + (chunk_size - chunk_overlap) in
        if start_index >=? end_index then
          if start_index <? len text
          then splitter_loop fuel' text chunk_size chunk_overlap chunks end_index
          else Some chunks
        else splitter_loop fuel' text chunk_size chunk_overlap chunks start_index
      else Some chunks
  end.

(** The chunks collected by the loop before the final filter, with as much
    fuel as the text has characters, plus one. *)
Definition splitter_windows (text : str) (chunk_size chunk_overlap : Z)
    : option (list str) :=
  splitter_loop (S (length text)) text chunk_size chunk_overlap [] 0.

Definition recursive_character_text_splitter_with
    (text : str) (chunk_size chunk_overlap : Z) : option (list str) :=
  if len text <=? chunk_size then Some [text]
  else
    match splitter_windows text chunk_size chunk_overlap with
    | None => None
    | Some chunks => Some (List.filter (fun chunk => truthy (strip chunk)) chunks)
    end.

(** The splitter as the indexer calls it, with the default window. *)
Definition recursive_character_text_splitter (text : str) : option (list str) :=
  recursive_character_text_splitter_with text CHUNK_SIZE CHUNK_OVERLAP.

(** *** parse_vision_markdown_page *)

Record page_fields := {
  main_text : str;
  visual_descriptions : str;
  table_descriptions : str;
  equation_descriptions : str
}.

Definition h4_marker : str := lit (String "010" "#### ").

(** Group 1 of [(.*?)(?=\n#### |\Z)] matched at the start of [s] under
    DOTALL: the shortest prefix followed by a level-4 heading line or by
    the end of the string. *)
Fixpoint before_h4 (s : str) : str :=
  match s with
  | [] => []
  | c :: s' => if startswith s h4_marker then [] else c :: before_h4 s'
  end.

(** [s.startswith(p)] up to letter case, as under IGNORECASE. *)
Definition startswith_ci (s p : str) : bool :=
  startswith (lower s) (lower p).

(** What is left of [s] after the greedy [\s*\n]: the text after the last
    newline of the leading whitespace run, if that run has a newline. *)
Fixpoint after_blank_newline (s : str) : option str :=
  match s with
  | [] => None
  | c :: s' =>
      if isspace c then
        match after_blank_newline s' with
        | Some rest => Some rest
        | None => if Ascii.eqb c "010" then Some s' else None
        end
      else None
  end.

(** [re.search] of [\n#### <heading>\s*\n(.*?)(?=\n#### |\Z)] under
    DOTALL and IGNORECASE: group 1 of the leftmost match. *)
Fixpoint search_section (heading_text : str) (s : str) : option str :=
  let here :=
    if startswith_ci s (h4_marker ++ heading_text)
    then after_blank_newline (drop (length (h4_marker ++ heading_text)) s)
    else None in
  match here with
  | Some body => Some (before_h4 body)
  | None =>
      match s with
      | [] => None
      | _ :: s' => search_section heading_text s'
      end
  end.

Definition section_text (heading_text : str) (page_content : str) : str :=
  match search_section heading_text page_content with
  | Some body => strip body
  | None => []
  end.

Definition parse_vision_markdown_page (page_content : str) : page_fields :=
  {| main_text := strip (before_h4 page_content);
     visual_descriptions := section_text (lit "Visual Elements Description") page_content;
     table_descriptions := section_text (lit "Table Content") page_content;
     equation_descriptions := section_text (lit "Key Equations") page_content |}.

(** *** The page loop of process_md_file_async *)

Definition isdigit (c : ascii) : bool :=
  let n := code c in ((48 <=? n) && (n <=? 57))%N.

Definition page_marker_open : str := lit (String "010" (String "010" "<!-- Page ")).
Definition page_marker_close : str :=
  lit " -->" ++ ["010"%char; "010"%char].

(** Length of a match of [\n\n<!-- Page \d+ -->\n\n] at the start of [s]. *)
Definition page_marker_length (s : str) : option nat :=
  if startswith s page_marker_open then
    let rest := drop (length page_marker_open) s in
    let digits := (length rest - length (lstrip_by isdigit rest))%nat in
    if (1 <=? digits)%nat && startswith (drop digits rest) page_marker_close
    then Some (length page_marker_open + digits + length page_marker_close)%nat
    else None
  else None.

(** [re.split] on the page marker.  [cur] holds the current segment in
    reverse, [skip] the characters of a matched marker still to pass. *)
Fixpoint split_pages_aux (s cur : str) (skip : nat) : list str :=
  match s with
  | [] => [rev cur]
  | c :: s' =>
      match skip with
      | S k => split_pages_aux s' cur k
      | O =>
          match page_marker_length s with
          | Some (S k) => rev cur :: split_pages_aux s' [] k
          | _ => split_pages_aux s' (c :: cur) 0
          end
      end
  end.

Definition split_pages (content : str) : list str := split_pages_aux content [] 0.

(** [md_path.stem.replace('_vision_processed', '')] *)
Definition infer_pdf_name (stem : str) : str :=
  remove_all (lit "_vision_processed") stem.

Record descriptions := {
  visual : str;
  table : str;
  equation : str
}.

(** The title heuristic. *)
Definition is_initial_chunk (pdf_name page_content : str) : bool :=
  if truthy page_content then contains (first_line page_content) pdf_name
  else false.

(** State of the page loop: the page counter and the entries
    (text_to_chunk, page_num, descriptions) appended so far. *)
Record page_loop_state := {
  current_page_num : Z;
  page_data_list : list (str * Z * descriptions)
}.

(** The counter after a non-blank segment: it moves unless the segment is
    taken for the title. *)
Definition next_page_num (pdf_name : str) (current_page_num : Z) (page_content : str) : Z :=
  if negb (is_initial_chunk pdf_name page_content)
  then current_page_num + 1 else current_page_num.

Definition page_num_for_meta (current_page_num : Z) : Z :=
  if current_page_num >? 0 then current_page_num else 1.

(** One iteration of [for page_content in pages]. *)
Definition page_step (pdf_name : str) (st : page_loop_state) (page_content : str)
    : page_loop_state :=
  if truthy (strip page_content) then
    let current_page_num := next_page_num pdf_name (current_page_num st) page_content in
    let parsed_data := parse_vision_markdown_page page_content in
    if truthy (main_text parsed_data) then
      {| current_page_num := current_page_num;
         page_data_list :=
           page_data_list st ++
           [(main_text parsed_data, page_num_for_meta current_page_num,
             {| visual := visual_descriptions parsed_data;
                table := table_descriptions parsed_data;
                equation := equation_descriptions parsed_data |})] |}
    else {| current_page_num := current_page_num;
            page_data_list := page_data_list st |}
  else st.

Definition page_loop (pdf_name : str) (pages : list str) : page_loop_state :=
  fold_left (page_step pdf_name) pages
            {| current_page_num := 0; page_data_list := [] |}.

(** *** Chunks, embeddings and records of one file *)

(** The metadata dictionary stored with a chunk; the last three fields are
    its keys visual_descriptions, table_descriptions and
    equation_descriptions. *)
Record metadata := {
  source_file : str;
  source_page : Z;
  meta_visual : str;
  meta_table : str;
  meta_equation : str
}.

(** The loop filling [all_chunks_for_file] and [all_metadata_for_file]. *)
Fixpoint chunk_pages (pdf_name : str) (pages : list (str * Z * descriptions))
    : option (list str * list metadata) :=
  match pages with
  | [] => Some ([], [])
  | (text_to_chunk, page_num, descriptions) :: rest =>
      chunks ← recursive_character_text_splitter text_to_chunk;
      later ← chunk_pages pdf_name rest;
      let metadata :=
        {| source_file := pdf_name; source_page := page_num;
           meta_visual := visual descriptions;
           meta_table := table descriptions;
           meta_equation := equation descriptions |} in
      Some (chunks ++ later.1, map (fun _ => metadata) chunks ++ later.2)
  end.

(** [range(0, stop, step)] for a positive [step]. *)
Definition range_step (stop step : nat) : list nat :=
  map (fun k => (k * step)%nat) (seq 0 ((stop + step - 1) / step)%nat).

(** The slices [l[i : i + CHROMA_BATCH_SIZE]] handed to [embed_batch] or to
    [collection.add]. *)
Definition batches {A} (l : list A) : list (list A) :=
  map (fun i => slice l (Z.of_nat i) (Z.of_nat i + Z.of_nat CHROMA_BATCH_SIZE))
      (range_step (length l) CHROMA_BATCH_SIZE).

Section Embedding.

(** What the embedding service returns for one text. *)
Variable embedding : Type.

(** A file as the indexer meets it: the stem of its name, what reading it
    gives ([None] when reading raises), the outcome of the embedding call
    for its k-th batch ([None] when the call raises, which [embed_batch]
    turns into the value None), and the identifiers [uuid4] hands out. *)
Record md_file := {
  stem : str;
  content : option str;
  embed_content_async : nat -> list str -> option (list embedding);
  uuid4 : nat -> str
}.

Definition record : Type := str * embedding * str * metadata.

(** The results of [asyncio.gather] over the batches, in batch order. *)
Definition embedding_results (f : md_file) (all_chunks_for_file : list str)
    : list (option (list embedding)) :=
  imap (embed_content_async f) (batches all_chunks_for_file).

(** The loop over [embedding_results]: (successful_embedding,
    all_embeddings_for_file), stopping at the first failed batch. *)
Fixpoint combine_results (results : list (option (list embedding)))
    (all_embeddings_for_file : list embedding) : bool * list embedding :=
  match results with
  | [] => (true, all_embeddings_for_file)
  | None :: _ => (false, all_embeddings_for_file)
  | Some batch_embeddings :: rest =>
      combine_results rest (all_embeddings_for_file ++ batch_embeddings)
  end.

(** The records of a file whose embeddings all arrived; [None] is an index
    out of range. *)
Definition build_records (f : md_file) (all_embeddings : list embedding)
    (all_chunks : list str) (all_metadata : list metadata) : option (list record) :=
  mapM (fun i =>
          e ← all_embeddings !! i;
          c ← all_chunks !! i;
          m ← all_metadata !! i;
          Some (uuid4 f i, e, c, m))
       (seq 0 (length all_chunks)).

(** The chunks and metadata of a file that could be read. *)
Definition file_chunks (f : md_file) (text : str) : option (list str * list metadata) :=
  let pdf_name := infer_pdf_name (stem f) in
  chunk_pages pdf_name (page_data_list (page_loop pdf_name (split_pages text))).

(** [process_md_file_async]: the records of one file.  The outer [None] is
    a splitter out of fuel; an exception inside the [try] gives the empty
    list. *)
Definition process_md_file_async (f : md_file) : option (list record) :=
  match content f with
  | None => Some []
  | Some text =>
      '(all_chunks_for_file, all_metadata_for_file) ← file_chunks f text;
      if truthy all_chunks_for_file then
        let '(successful_embedding, all_embeddings_for_file) :=
          combine_results (embedding_results f all_chunks_for_file) [] in
        if successful_embedding
           && (length all_embeddings_for_file =? length all_chunks_for_file)%nat
        then Some (default [] (build_records f all_embeddings_for_file
                                 all_chunks_for_file all_metadata_for_file))
        else Some []
      else Some []
  end.

(** The records of all files, in file order, as [main_async] collects
    them. *)
Fixpoint collect_results (files : list md_file) : option (list record) :=
  match files with
  | [] => Some []
  | f :: rest =>
      file_results ← process_md_file_async f;
      later ← collect_results rest;
      Some (file_results ++ later)
  end.

(** The sequential [collection.add] loop: the batches passed to the store
    up to the first call that raises ([add_ok k] tells whether the k-th call
    succeeds). *)
Fixpoint add_batches (add_ok : nat -> bool) (k : nat) (todo : list (list record))
    : list (list record) :=
  match todo with
  | [] => []
  | batch :: rest =>
      if add_ok k then batch :: add_batches add_ok (S k) rest else []
  end.

(** [main_async] from step 4 on: the records added to the collection. *)
Definition main_async (files : list md_file) (add_ok : nat -> bool)
    : option (list record) :=
  all ← collect_results files;
  Some (concat (add_batches add_ok 0 (batches all))).

End Embedding.

Arguments Build_md_file {embedding}.
Arguments stem {embedding}.
Arguments content {embedding}.
Arguments embed_content_async {embedding}.
Arguments uuid4 {embedding}.
Arguments embedding_results {embedding}.
Arguments combine_results {embedding}.
Arguments build_records {embedding}.
Arguments file_chunks {embedding}.
Arguments process_md_file_async {embedding}.
Arguments collect_results {embedding}.
Arguments add_batches {embedding}.
Arguments main_async {embedding}.

End indexer_vision.

(** ** The external services *)

(** The reply object of the generation API, as far as the scripts look at
    it: an attribute is [None] when [hasattr] would say no. *)
Module genai.
Import Py.

Record part := { part_text : option str }.

Record candidate := { content_parts : option (list part) }.

Record response := {
  text : option str;
  parts : option (list part);
  candidates : list candidate;
  prompt_feedback : option str
}.

(** A generation call inside its [try]: either nothing raises and the reply
    is [r], or an exception with message [e] is raised, with the reply
    bound by then or not. *)
Inductive call :=
  | Replied (r : response)
  | Raised (e : str) (bound : option response).

(** [empty.join(part.text for part in parts if hasattr(part, 'text'))] *)
Definition join_parts (ps : list part) : str := concat (omap part_text ps).

(** The parts of the first candidate, when the chain of tests
    [response.candidates and hasattr(response.candidates[0].content, 'parts')
    and response.candidates[0].content.parts] holds. *)
Definition first_candidate_parts (r : response) : option (list part) :=
  match candidates r with
  | [] => None
  | c :: _ =>
      match content_parts c with
      | Some ps => if truthy ps then Some ps else None
      | None => None
      end
  end.

End genai.

(** A row of a similarity query: document, metadata dictionary (a key is
    [None] when absent) and distance. *)
Module chromadb.
Import Py.

Record hit_metadata := {
  source_file : option str;
  source_page : option Z;
  visual_descriptions : option str;
  table_descriptions : option str;
  equation_descriptions : option str
}.

Record hit (distance : Type) := {
  document : str;
  metadata : hit_metadata;
  hit_distance : distance
}.

Arguments document {distance}.
Arguments metadata {distance}.
Arguments hit_distance {distance}.

End chromadb.

(** A script either runs to its end with a value, leaves through
    [sys.exit], or is ended by an exception that no handler catches (the
    interpreter prints the traceback and ends with status 1). *)
Inductive outcome (A : Type) :=
  | Returned (a : A)
  | Exited (status : Z)
  | Uncaught.

Arguments Returned {A}.
Arguments Exited {A}.
Arguments Uncaught {A}.

(** ** scripts/rag_exam_solver.py *)

Module rag_exam_solver.
Import Py.

Definition N_RESULTS : Z := 10.

(** Decimal text of an integer, as an f-string renders it. *)
Definition str_of_int (n : Z) : str :=
  lit (DecimalString.NilZero.string_of_int (Z.to_int n)).

Definition quotes3 : str := ["034"%char; "034"%char; "034"%char].

(** [meta.get(key, 'N/A')] inside an f-string. *)
Definition get_or_na (v : option str) : str := default (lit "N/A") v.

(** [desc and desc.strip()] *)
Definition present (desc : option str) : bool :=
  match desc with
  | Some d => truthy d && truthy (strip d)
  | None => false
  end.

Section Solver.

Variables embedding distance : Type.

(** [dist:.4f] *)
Variable format_4f : distance -> str.

(** The services as one run meets them: the embedding call ([None] when it
    raises), the collection query ([None] when it raises), the generation
    call, and the file system under [save_output]: whether
    [output_path.mkdir] raises, and whether opening the file or
    [json.dump] raises. *)
Record services := {
  embed_content : str -> option embedding;
  collection_query : embedding -> Z -> option (list (chromadb.hit distance));
  generate_content : str -> genai.call;
  mkdir_raises : bool;
  dump_raises : bool
}.

Definition embed_query (sv : services) (query_text : str) : outcome embedding :=
  match embed_content sv query_text with
  | Some e => Returned e
  | None => Exited 1
  end.

Definition query_chroma (sv : services) (query_embedding : embedding) (n_results : Z)
    : option (list (chromadb.hit distance)) :=
  collection_query sv query_embedding n_results.

Definition format_chunk (i : nat) (h : chromadb.hit distance) : str :=
  let meta := chromadb.metadata h in
  let page := get_or_na (str_of_int <$> chromadb.source_page meta) in
  lit "--- Context Chunk " ++ str_of_int (Z.of_nat i + 1)
  ++ lit " (Source: " ++ get_or_na (chromadb.source_file meta)
  ++ lit ", Page: " ++ page
  ++ lit ", Distance: " ++ format_4f (chromadb.hit_distance h) ++ lit ") ---
"
  ++ lit "Text Content:
" ++ chromadb.document h ++ lit "

"
  ++ (if present (chromadb.visual_descriptions meta)
      then lit "Visual Elements Description (from page " ++ page ++ lit "):
"
           ++ default [] (chromadb.visual_descriptions meta) ++ lit "

"
      else [])
  ++ (if present (chromadb.table_descriptions meta)
      then lit "Table Content Summary (from page " ++ page ++ lit "):
"
           ++ default [] (chromadb.table_descriptions meta) ++ lit "

"
      else [])
  ++ (if present (chromadb.equation_descriptions meta)
      then lit "Key Equations (from page " ++ page ++ lit "):
"
           ++ default [] (chromadb.equation_descriptions meta) ++ lit "

"
      else [])
  ++ lit "---

".

Definition no_context : str := lit "No relevant context found in the knowledge base.".

Definition format_retrieved_context (results : option (list (chromadb.hit distance))) : str :=
  match results with
  | None => no_context
  | Some hits =>
      if negb (truthy hits) then no_context
      else strip (lit "Retrieved Context from Study Material:

" ++ concat (imap format_chunk hits))
  end.

Definition construct_rag_prompt (exam_query formatted_context : str) : str :=
  lit "You are an expert teaching assistant. Your task is to provide a clear, step-by-step explanation or guide to solve the following exam problem/topic, using ONLY the provided context from the study materials.

Exam Problem/Topic:
" ++ quotes3 ++ lit "
" ++ exam_query ++ lit "
" ++ quotes3 ++ lit "

Relevant Context from Study Materials:
" ++ quotes3 ++ lit "
" ++ formatted_context ++ lit "
" ++ quotes3 ++ lit "

Instructions:
1.  Analyze the exam problem/topic.
2.  Synthesize an explanation or a step-by-step guide using the provided context.
3.  Explicitly reference the source file and page number (e.g., " ++ ["034"%char]
  ++ lit "According to Lecture 3, Page 5..." ++ ["034"%char] ++ lit ") when using information from the context.
4.  If the context includes descriptions of visuals, tables, or equations relevant to the problem, incorporate them into your explanation.
5.  If the context does not contain sufficient information to fully answer, clearly state what information is missing or cannot be determined from the provided text. DO NOT MAKE UP INFORMATION.
6.  Structure the answer clearly (e.g., use bullet points, numbered steps).

Provide your explanation below:
".

Definition generate_explanation (sv : services) (prompt : str) : str :=
  match generate_content sv prompt with
  | genai.Replied r =>
      match genai.text r with
      | Some t => t
      | None =>
          match genai.parts r with
          | Some (p :: ps) => genai.join_parts (p :: ps)
          | _ =>
              match genai.first_candidate_parts r with
              | Some ps => genai.join_parts ps
              | None => lit "Error: Could not extract explanation from the response."
              end
          end
      end
  | genai.Raised e _ => lit "Error generating explanation: " ++ e
  end.

(** The file name [save_output] derives from the query, without the
    extension. *)
Definition safe_filename (query : str) : str :=
  let safe_filename :=
    strip_chars (lit "_")
      (map (fun c => if isalnum c then c else "_"%char) (slice query 0 50)) in
  if negb (truthy safe_filename) then lit "rag_output" else safe_filename.

(** What the run leaves behind: the JSON object written, under its file
    name; the two texts printed; or, when the write of the file raised,
    the error message about that file and no object. *)
Inductive output :=
  | Saved (file_name query retrieved_context generated_explanation : str)
  | Printed (explanation formatted_context : str)
  | SaveFailed (file_name : str).

(** What [save_output] writes where nothing raises. *)
Definition save_output (query context explanation : str) : output :=
  Saved (safe_filename query ++ lit ".json") query context explanation.

(** [save_output] as a step of the run.  [output_path.mkdir] stands before
    the [try]: when it raises, nothing catches the exception.  The write
    stands inside the [try]: when it raises, the error is printed and the
    function returns. *)
Definition save_output_step (sv : services) (query context explanation : str)
    : outcome output :=
  if mkdir_raises sv then Uncaught
  else if dump_raises sv
       then Returned (SaveFailed (safe_filename query ++ lit ".json"))
       else Returned (save_output query context explanation).

(** The script from step 3 on, with the API configured and the collection
    connected. *)
Definition main (sv : services) (query : str) (n_results : Z) (no_save : bool)
    : outcome output :=
  match embed_query sv query with
  | Exited status => Exited status
  | Uncaught => Uncaught
  | Returned query_embedding =>
      let retrieved_results := query_chroma sv query_embedding n_results in
      let formatted_context := format_retrieved_context retrieved_results in
      let rag_prompt := construct_rag_prompt query formatted_context in
      let explanation := generate_explanation sv rag_prompt in
      if no_save then Returned (Printed explanation formatted_context)
      else save_output_step sv query formatted_context explanation
  end.

End Solver.

Arguments embed_content {embedding distance}.
Arguments collection_query {embedding distance}.
Arguments generate_content {embedding distance}.
Arguments mkdir_raises {embedding distance}.
Arguments dump_raises {embedding distance}.
Arguments save_output_step {embedding distance}.
Arguments Build_services {embedding distance}.
Arguments embed_query {embedding distance}.
Arguments query_chroma {embedding distance}.
Arguments format_retrieved_context {distance}.
Arguments format_chunk {distance}.
Arguments generate_explanation {embedding distance}.
Arguments main {embedding distance}.

End rag_exam_solver.

(** ** asyncio.gather *)

Module asyncio.

(** The awaitables complete in the order of [schedule]; a completion puts
    the result of its awaitable in the slot of that awaitable. *)
Definition complete {A} (results : list A) (slots : list (option A)) (i : nat)
    : list (option A) :=
  match results !! i with
  | Some a => <[i := Some a]> slots
  | None => slots
  end.

(** [await asyncio.gather] over awaitables of which the i-th results in
    [results !! i]: once every slot is filled, the slots in the order of the
    awaitables; [None] while a slot is empty. *)
Definition gather {A} (schedule : list nat) (results : list A) : option (list A) :=
  mapM id (fold_left (complete results) schedule (replicate (length results) None)).

End asyncio.

(** ** scripts/create_exam_guide.py *)

Module create_exam_guide.
Import Py.

Definition N_RESULTS : Z := 10.

Definition str_of_int (n : Z) : str :=
  lit (DecimalString.NilZero.string_of_int (Z.to_int n)).

Definition quotes3 : str := ["034"%char; "034"%char; "034"%char].

Definition get_or_na (v : option str) : str := default (lit "N/A") v.

Definition present (desc : option str) : bool :=
  match desc with
  | Some d => truthy d && truthy (strip d)
  | None => false
  end.

Section Guide.

Variables embedding distance : Type.

(** [dist:.4f] *)
Variable format_4f : distance -> str.

(** The services as one run meets them.  The calls are numbered by the
    position of their topic, so that two calls on equal texts may differ. *)
Record services := {
  embed_content_async : nat -> str -> option embedding;
  collection_query : nat -> embedding -> Z -> option (list (chromadb.hit distance));
  generate_content_async : nat -> str -> genai.call
}.

Definition embed_query_async (sv : services) (i : nat) (query_text : str)
    : option embedding :=
  embed_content_async sv i query_text.

Definition query_chroma (sv : services) (i : nat) (query_embedding : option embedding)
    (n_results : Z) : option (list (chromadb.hit distance)) :=
  match query_embedding with
  | None => None
  | Some e => collection_query sv i e n_results
  end.

Definition format_chunk (i : nat) (h : chromadb.hit distance) : str :=
  let meta := chromadb.metadata h in
  let page := get_or_na (str_of_int <$> chromadb.source_page meta) in
  lit "--- Context Chunk " ++ str_of_int (Z.of_nat i + 1)
  ++ lit " (Source: " ++ get_or_na (chromadb.source_file meta)
  ++ lit ", Page: " ++ page
  ++ lit ", Distance: " ++ format_4f (chromadb.hit_distance h) ++ lit ") ---
"
  ++ lit "Text Content:
" ++ chromadb.document h ++ lit "

"
  ++ (if present (chromadb.visual_descriptions meta)
      then lit "*Visual Elements Description (from page " ++ page ++ lit "):*
"
           ++ default [] (chromadb.visual_descriptions meta) ++ lit "

"
      else [])
  ++ (if present (chromadb.table_descriptions meta)
      then lit "*Table Content Summary (from page " ++ page ++ lit "):*
"
           ++ default [] (chromadb.table_descriptions meta) ++ lit "

"
      else [])
  ++ (if present (chromadb.equation_descriptions meta)
      then lit "*Key Equations (from page " ++ page ++ lit "):*
"
           ++ default [] (chromadb.equation_descriptions meta) ++ lit "

"
      else [])
  ++ lit "---

".

Definition no_context : str :=
  lit "No relevant context found in the local knowledge base.".

Definition format_retrieved_context (results : option (list (chromadb.hit distance))) : str :=
  match results with
  | None => no_context
  | Some hits =>
      if negb (truthy hits) then no_context
      else strip (lit "Retrieved Context from Local Study Material:

" ++ concat (imap format_chunk hits))
  end.

Definition construct_augmented_rag_prompt (exam_topic formatted_context : str) : str :=
  lit "You are an expert teaching assistant creating a comprehensive study guide. Your task is to explain the following exam topic thoroughly, combining information from provided local documents with your own general knowledge.

Exam Topic:
" ++ quotes3 ++ lit "
" ++ exam_topic ++ lit "
" ++ quotes3 ++ lit "

Relevant Context Retrieved from Local Study Materials:
" ++ quotes3 ++ lit "
" ++ formatted_context ++ lit "
" ++ quotes3 ++ lit "

Instructions:
1.  **Analyze the Exam Topic:** Understand the core concepts required.
2.  **Explain using Local Context:** First, synthesize a clear explanation based *ONLY* on the " ++ ["034"%char]
  ++ lit "Relevant Context Retrieved from Local Study Materials" ++ ["034"%char] ++ lit " provided above.
    *   Explicitly reference the source file and page number (e.g., " ++ ["034"%char]
  ++ lit "According to Lecture 3, Page 5..." ++ ["034"%char] ++ lit ") when using this information.
    *   Incorporate any relevant visual, table, or equation descriptions found in the local context.
    *   Use clear Markdown formatting (headings, lists, bolding, code blocks if applicable).
3.  **Identify Gaps:** After explaining based on local context, explicitly state if the provided local context is insufficient to fully cover the topic or if certain aspects are missing. Mention what these gaps are. If the context *is* sufficient, state that.
4.  **Augment with General Knowledge:** If you identified gaps OR if you believe your general knowledge can provide significant valuable additions (like broader context, alternative approaches, real-world examples, or deeper insights not present in the local documents), add a section titled " ++ ["034"%char]
  ++ lit "### Additional Information (General Knowledge)" ++ ["034"%char] ++ lit ".
    *   In this section, use your own knowledge base to fill the identified gaps or provide the supplementary information.
    *   **Crucially, make it clear that this additional information comes from your general knowledge and not the specific local documents.**
5.  **Final Formatting:** Ensure the entire explanation for the topic is well-structured, uses excellent Markdown formatting, and is easy to read and understand. Start the explanation for the topic with a Level 2 Markdown heading (e.g., `## Topic Name`).

Provide the complete, well-formatted explanation for the exam topic below:
".

(** What [generate_guide_explanation_async] returns for the i-th topic. *)
Definition generate_guide_explanation_async (sv : services) (i : nat)
    (prompt topic_name : str) : str :=
  match generate_content_async sv i prompt with
  | genai.Replied r =>
      match genai.text r with
      | Some t => t
      | None =>
          match genai.parts r with
          | Some (p :: ps) => genai.join_parts (p :: ps)
          | _ =>
              match genai.first_candidate_parts r with
              | Some ps => genai.join_parts ps
              | None => lit "

*Error: Could not generate explanation for this topic due to response format issues.*

"
              end
          end
      end
  | genai.Raised e bound =>
      lit "

*Error generating explanation for this topic: " ++ e ++ lit "*"
      ++ match bound ≫= genai.prompt_feedback with
         | Some feedback =>
             if truthy feedback then lit "
*Prompt Feedback: " ++ feedback ++ lit "*" else []
         | None => []
         end
      ++ lit "

"
  end.

(** What the dummy task of a topic that could not be embedded returns. *)
Definition error_task (t : str) : str :=
  lit "## " ++ t ++ lit "

*Error: Could not embed this topic query. Skipping.*

".

(** The loop filling [topic_data_for_generation]: one (topic, prompt) pair
    per topic, the prompt [None] when the embedding failed. *)
Definition prepare_topic (sv : services) (n_results : Z) (i : nat) (topic : str)
    : str * option str :=
  match embed_query_async sv i topic with
  | None => (topic, None)
  | Some query_embedding =>
      let retrieved_results := query_chroma sv i (Some query_embedding) n_results in
      let formatted_context := format_retrieved_context retrieved_results in
      (topic, Some (construct_augmented_rag_prompt topic formatted_context))
  end.

Definition topic_data_for_generation (sv : services) (n_results : Z) (topics : list str)
    : list (str * option str) :=
  imap (prepare_topic sv n_results) topics.

(** What the i-th generation task results in. *)
Definition task_result (sv : services) (i : nat) (data : str * option str) : str :=
  match data.2 with
  | None => error_task data.1
  | Some prompt => generate_guide_explanation_async sv i prompt data.1
  end.

(** The explanations gathered, for a completion order of the tasks. *)
Definition explanations (sv : services) (n_results : Z) (topics : list str)
    (schedule : list nat) : option (list str) :=
  asyncio.gather schedule
    (imap (task_result sv) (topic_data_for_generation sv n_results topics)).

Definition guide_preamble : str :=
  lit "# Exam Study Guide

This guide covers key topics based on local study materials and augmented with general knowledge.

".

Definition compile_guide (explanations : list str) : str :=
  join (lit "
") (guide_preamble :: map (fun exp => exp ++ lit "

---
") explanations).

(** [main_async] from step 4 on, the topics loaded and the collection
    connected: the guide saved.  The inner [None] is a gather that has not
    received every result. *)
Definition main_async (sv : services) (n_results : Z) (topics : list str)
    (schedule : list nat) : outcome (option str) :=
  if negb (truthy topics) then Exited 0
  else Returned (compile_guide <$> explanations sv n_results topics schedule).

End Guide.

Arguments embed_content_async {embedding distance}.
Arguments collection_query {embedding distance}.
Arguments generate_content_async {embedding distance}.
Arguments Build_services {embedding distance}.
Arguments embed_query_async {embedding distance}.
Arguments query_chroma {embedding distance}.
Arguments format_retrieved_context {distance}.
Arguments generate_guide_explanation_async {embedding distance}.
Arguments prepare_topic {embedding distance}.
Arguments topic_data_for_generation {embedding distance}.
Arguments task_result {embedding distance}.
Arguments explanations {embedding distance}.
Arguments main_async {embedding distance}.

End create_exam_guide.

(** ** scripts/structure_exam_topics.py *)

Module structure_exam_topics.
Import Py.

(** A decoded JSON value; a number is kept as its text. *)
#[local] Unset Elimination Schemes.
Inductive json :=
  | JNull
  | JBool (b : bool)
  | JNumber (literal : str)
  | JString (s : str)
  | JArray (items : list json)
  | JObject (members : list (str * json)).
#[local] Set Elimination Schemes.

Definition fence_open : str := lit "```json".
Definition fence_close : str := lit "```".

(** [re.search] of [```json\s*([\s\S]*?)\s*```] followed by
    [group(1).strip()]: the text between the first opening fence and the
    first closing fence after it, trimmed; [None] without such a pair. *)
Definition fenced_json (raw_text : str) : option str :=
  let p := find raw_text fence_open in
  if p <? 0 then None
  else
    let rest := slice raw_text (p + len fence_open) (len raw_text) in
    let q := find rest fence_close in
    if q <? 0 then None else Some (strip (slice rest 0 q)).

(** The text handed to the JSON decoder. *)
Definition json_string (raw_text : str) : str :=
  match fenced_json raw_text with
  | Some block => block
  | None =>
      let json_string := strip raw_text in
      let first_bracket := find json_string (lit "[") in
      let last_bracket := rfind json_string (lit "]") in
      if negb (first_bracket =? -1) && negb (last_bracket =? -1)
      then slice json_string first_bracket (last_bracket + 1)
      else json_string
  end.

(** The text taken from the reply, [None] when none of the three places
    holds one. *)
Definition raw_text (r : genai.response) : option str :=
  match genai.text r with
  | Some t => Some t
  | None =>
      match genai.parts r with
      | Some (p :: ps) => Some (genai.join_parts (p :: ps))
      | _ => genai.join_parts <$> genai.first_candidate_parts r
      end
  end.

Section Structurer.

(** [json.loads]; [None] is a JSONDecodeError. *)
Variable json_loads : str -> option json.

Definition structure_topics_with_llm (reply : genai.call) : option (list json) :=
  match reply with
  | genai.Raised _ _ => None
  | genai.Replied r =>
      match raw_text r with
      | None => None
      | Some raw =>
          match json_loads (json_string raw) with
          | Some (JArray parsed_json) => Some parsed_json
          | Some _ => None
          | None => None
          end
      end
  end.

(** What a run leaves: the list saved to the output file, if any, whether
    the count warning was printed, and the exit status. *)
Record run := {
  output_file : option (list json);
  count_warning : bool;
  exit_status : Z
}.

(** The script from step 3 on, for the topics loaded and the reply of the
    model to the prompt. *)
Definition main (original_topics : list json) (reply : genai.call) : run :=
  if negb (truthy original_topics) then
    {| output_file := None; count_warning := false; exit_status := 0 |}
  else
    match structure_topics_with_llm reply with
    | Some (t :: ts) =>
        let structured_topics := t :: ts in
        {| output_file := Some structured_topics;
           count_warning :=
             negb (length structured_topics =? length original_topics)%nat;
           exit_status := 0 |}
    | _ => {| output_file := None; count_warning := false; exit_status := 1 |}
    end.

End Structurer.

End structure_exam_topics.

(** ** scripts/extract_exam_topics.py *)

Module extract_exam_topics.
Import Py.

(** [s.splitlines()]: [cur] is the current line in reverse; [after_cr]
    tells that the character before was a carriage return, which a line
    feed directly after it belongs to. *)
Fixpoint splitlines_aux (s cur : str) (after_cr : bool) : list str :=
  match s with
  | [] => if truthy cur then [rev cur] else []
  | c :: s' =>
      if after_cr && Ascii.eqb c "010" then splitlines_aux s' cur false
      else if islinebreak c
           then rev cur :: splitlines_aux s' [] (Ascii.eqb c "013")
           else splitlines_aux s' (c :: cur) false
  end.

Definition splitlines (s : str) : list str := splitlines_aux s [] false.

(** [extract_topics_from_summary], for the text of the reply of the model
    ([None] when the call or the reading of its text raises). *)
Definition extract_topics_from_summary (response_text : option str) : list str :=
  match response_text with
  | Some text =>
      map strip (List.filter (fun line => truthy (strip line)) (splitlines text))
  | None => []
  end.

(** A summary file: what reading it gives ([None] when it raises) and the
    reply of the model to its prompt. *)
Record summary_file := {
  summary_content : option str;
  response_text : option str
}.

(** One iteration of the loop over the files. *)
Definition process_file (unique_topics : gset str) (f : summary_file) : gset str :=
  match summary_content f with
  | None => unique_topics
  | Some content =>
      if negb (truthy (strip content)) then unique_topics
      else
        let extracted_topics := extract_topics_from_summary (response_text f) in
        if truthy extracted_topics
        then unique_topics ∪ list_to_set extracted_topics
        else unique_topics
  end.

Definition accumulate (md_files : list summary_file) : gset str :=
  fold_left process_file md_files ∅.

(** Order of strings: by code point, position by position. *)
Fixpoint str_leb (a b : str) : bool :=
  match a, b with
  | [], _ => true
  | _ :: _, [] => false
  | c :: a', d :: b' =>
      if (code c <? code d)%N then true
      else if (code c =? code d)%N then str_leb a' b'
      else false
  end.

Definition str_le (a b : str) : Prop := str_leb a b = true.

Global Instance str_le_dec : RelDecision str_le.
Proof. intros a b. unfold str_le. apply _. Defined.

(** [sorted(list(unique_topics))]; the order in which the set is listed
    is not fixed by Python, [elements] stands for any of them. *)
Definition sorted (l : list str) : list str := merge_sort str_le l.

(** What is written to the output file. *)
Inductive written :=
  | JsonArray (topic_list : list str)
  | Lines (text : str).

Definition write_lines (topic_list : list str) : str :=
  concat (map (fun topic => topic ++ ["010"%char]) topic_list).

(** The file system as the saving step meets it: whether
    [output_path.parent.mkdir] raises, and whether opening the output file
    or writing to it raises. *)
Record file_system := {
  parent_mkdir_raises : bool;
  write_raises : bool
}.

(** What a run leaves: the file as completely written, if any; whether the
    extension warning was printed; the exit status; and whether the run
    was ended by an exception that nothing catches (the interpreter then
    ends with status 1). *)
Record run := {
  output_file : option written;
  extension_warning : bool;
  exit_status : Z;
  uncaught_exception : bool
}.

(** The [try] block around the write: the file on success; when it raises,
    the handler prints the error and calls [sys.exit(1)]. *)
Definition save (fs : file_system) (content : written) (warning : bool) : run :=
  if write_raises fs then
    {| output_file := None; extension_warning := warning;
       exit_status := 1; uncaught_exception := false |}
  else
    {| output_file := Some content; extension_warning := warning;
       exit_status := 0; uncaught_exception := false |}.

(** The script from step 4 on, for the files found and the suffix of the
    output path.  The [mkdir] of the output directory stands outside every
    [try]. *)
Definition main (fs : file_system) (md_files : list summary_file) (suffix : str)
    : run :=
  if negb (truthy md_files) then
    {| output_file := None; extension_warning := false;
       exit_status := 0; uncaught_exception := false |}
  else
    let unique_topics := accumulate md_files in
    if negb (truthy (elements unique_topics)) then
      {| output_file := None; extension_warning := false;
         exit_status := 0; uncaught_exception := false |}
    else if parent_mkdir_raises fs then
      {| output_file := None; extension_warning := false;
         exit_status := 1; uncaught_exception := true |}
    else
      let topic_list := sorted (elements unique_topics) in
      let file_extension := lower suffix in
      if str_eqb file_extension (lit ".json") then
        save fs (JsonArray topic_list) false
      else if str_eqb file_extension (lit ".txt") then
        save fs (Lines (write_lines topic_list)) false
      else
        save fs (Lines (write_lines topic_list)) true.

End extract_exam_topics.

(** ** Vocabulary of the statements *)

Module Spec.
Import Py.

(** Overlap trimming: every chunk but the first loses its first [overlap]
    characters, which repeat the end of the chunk before it. *)
Definition overlap_trimmed (overlap : nat) (chunks : list str) : list str :=
  match chunks with
  | [] => []
  | c :: rest => c :: map (drop overlap) rest
  end.

(** [ceil(a / b)] for a positive [b]. *)
Definition ceil_div (a b : Z) : Z := (a + b - 1) / b.

(** The windows in closed form: [count] windows of at most 1000 characters,
    800 characters apart, from offset [start]. *)
Fixpoint windows_from (text : str) (start count : nat) : list str :=
  match count with
  | O => []
  | S count' => take 1000 (drop start text) :: windows_from text (start + 800) count'
  end.

(** A chunk the final filter of the splitter keeps. *)
Definition kept (chunk : str) : bool := truthy (strip chunk).

(** The page number computed for each non-blank segment, in order, from a
    given value of the counter (the loop computes it for every such
    segment and stores it only with a non-empty main text). *)
Fixpoint page_trace (pdf_name : str) (current_page_num : Z) (pages : list str)
    : list (str * Z) :=
  match pages with
  | [] => []
  | page_content :: rest =>
      if truthy (strip page_content) then
        let n := indexer_vision.next_page_num pdf_name current_page_num page_content in
        (page_content, indexer_vision.page_num_for_meta n) :: page_trace pdf_name n rest
      else page_trace pdf_name current_page_num rest
  end.

(** The entry the loop stores for a segment and its page number, if any. *)
Definition page_entry (e : str * Z)
    : option (str * Z * indexer_vision.descriptions) :=
  let parsed_data := indexer_vision.parse_vision_markdown_page e.1 in
  if truthy (indexer_vision.main_text parsed_data) then
    Some (indexer_vision.main_text parsed_data, e.2,
          {| indexer_vision.visual := indexer_vision.visual_descriptions parsed_data;
             indexer_vision.table := indexer_vision.table_descriptions parsed_data;
             indexer_vision.equation := indexer_vision.equation_descriptions parsed_data |})
  else None.

Definition nonblank (s : str) : bool := truthy (strip s).

(** Sample inputs. *)
Definition text_1700 : str := repeat "a"%char 1700.

Definition nl : string := String "010" EmptyString.

Definition sample_title : str := lit ("# lec notes" ++ nl ++ "Autumn term").
Definition sample_rest : list str :=
  [lit "First page"; lit nl; lit (nl ++ "#### Key Equations" ++ nl ++ "E = m c^2");
   lit "Third page"].

(** A file whose second segment also names the document in its first line. *)
Definition sample_pages_title_twice : list str :=
  [lit "lec"; lit "lec intro"; lit "x"].

(** A file of one title and one page whose embedding call raises, and a
    file whose call answers with one vector per chunk. *)
Definition sample_content : str :=
  lit ("lec" ++ nl ++ nl ++ "<!-- Page 1 -->" ++ nl ++ nl ++ "Hello").

Definition sample_failing_file : indexer_vision.md_file nat :=
  {| indexer_vision.stem := lit "lec_vision_processed";
     indexer_vision.content := Some sample_content;
     indexer_vision.embed_content_async := fun _ _ => None;
     indexer_vision.uuid4 := fun _ => lit "id" |}.

Definition sample_good_file : indexer_vision.md_file nat :=
  {| indexer_vision.stem := lit "lab_vision_processed";
     indexer_vision.content :=
       Some (lit ("lab" ++ nl ++ nl ++ "<!-- Page 1 -->" ++ nl ++ nl ++ "Hello"));
     indexer_vision.embed_content_async := fun _ batch => Some (map (fun _ => 7%nat) batch);
     indexer_vision.uuid4 := fun i => lit (if (i =? 0)%nat then "id0" else "id1") |}.

(** Services for three topics: the embedding of the second fails, the
    generation answers the others; and a solver whose embedding fails. *)
Definition sample_reply (t : string) : genai.call :=
  genai.Replied {| genai.text := Some (lit t); genai.parts := None;
                   genai.candidates := []; genai.prompt_feedback := None |}.

Definition sample_guide_services : create_exam_guide.services unit unit :=
  {| create_exam_guide.embed_content_async :=
       fun i _ => if (i =? 1)%nat then None else Some tt;
     create_exam_guide.collection_query := fun _ _ _ => Some [];
     create_exam_guide.generate_content_async :=
       fun i _ => sample_reply (if (i =? 0)%nat then "## A" else "## C") |}.


Definition sample_topics : list str := [lit "A"; lit "B"; lit "C"].

(** The task of the first topic completes last. *)
Definition sample_schedule : list nat := [1; 2; 0]%nat.






(** Two summaries: a reply of three lines, two of them equal up to the
    surrounding blanks, and a failed call. *)
Definition sample_summaries : list extract_exam_topics.summary_file :=
  [ {| extract_exam_topics.summary_content := Some (lit "Exam 1");
       extract_exam_topics.response_text :=
         Some (lit (" Entropy " ++ nl ++ "Carnot cycle" ++ nl ++ nl ++ "Entropy")) |};
    {| extract_exam_topics.summary_content := Some (lit "Exam 2");
       extract_exam_topics.response_text := None |} ].


(** A file system on which nothing raises, and one on which the write of
    the output file raises. *)
Definition working_file_system : extract_exam_topics.file_system :=
  {| extract_exam_topics.parent_mkdir_raises := false;
     extract_exam_topics.write_raises := false |}.


(** A segment made of the three description headings and their bodies,
    directly after the page marker; and the same after a blank line. *)
Definition headings_only : string :=
  "#### Visual Elements Description" ++ nl ++ "A diagram" ++ nl
  ++ "#### Table Content" ++ nl ++ "A table" ++ nl
  ++ "#### Key Equations" ++ nl ++ "E = m c^2".

Definition text_blank_window : str :=
  repeat "a"%char 800 ++ repeat " "%char 1000 ++ repeat "b"%char 800.

End Spec.

(** ** Vocabulary of the further statements *)

Module Derived.
Import Py.

(** The windows for a window size and a step: [count] windows of at most
    [size] characters, [step] characters apart, from offset [start]. *)
Fixpoint windows_general (text : str) (size step start count : nat) : list str :=
  match count with
  | O => []
  | S count' =>
      take size (drop start text)
      :: windows_general text size step (start + step) count'
  end.


(** A row of a query result with a table description only. *)
Definition sample_hit : chromadb.hit unit :=
  {| chromadb.document := lit "Entropy never decreases.";
     chromadb.metadata :=
       {| chromadb.source_file := Some (lit "lec");
          chromadb.source_page := Some 3;
          chromadb.visual_descriptions := None;
          chromadb.table_descriptions := Some (lit "T and S per state");
          chromadb.equation_descriptions := Some (lit " ") |};
     chromadb.hit_distance := tt |}.

(** A topic as the extractor keeps it: not empty, trimmed, on one line. *)
Definition clean_topic (t : str) : Prop :=
  t <> [] /\ strip t = t /\ forall c, In c t -> islinebreak c = false.

End Derived.

(** ** Properties of the splitter *)

Section Splitter.
Import Py indexer_vision Spec.

Lemma slice_index_nat (n i : nat) :
  slice_index (Z.of_nat n) (Z.of_nat i) = Z.of_nat (Nat.min n i).
Proof.
  unfold slice_index. destruct (Z.ltb_spec (Z.of_nat i) 0); lia.
Qed.

Lemma slice_nat {A} (s : list A) (a b : nat) :
  slice s (Z.of_nat a) (Z.of_nat b) = take (b - a) (drop a s).
Proof.
  unfold slice, len. rewrite !slice_index_nat.
  destruct (Nat.le_gt_cases (length s) a) as [Hge|Hlt].
  - rewrite (drop_ge s a) by lia. rewrite take_nil.
    rewrite drop_ge by lia. apply take_nil.
  - replace (Z.to_nat (Z.of_nat (Nat.min (length s) a))) with a by lia.
    destruct (Nat.le_gt_cases (length s) b) as [Hb|Hb].
    + rewrite !take_ge; [done | rewrite length_drop; lia | rewrite length_drop; lia].
    + f_equal. lia.
Qed.

Lemma windows_from_length text start count :
  length (windows_from text start count) = count.
Proof. revert start. induction count; intros; simpl; auto. Qed.

(** The loop, from a start offset inside the text, collects the windows of
    the closed form and stops. *)
Lemma splitter_loop_windows (text : str) :
  forall (count fuel : nat) (chunks : list str) (start : nat),
    (count <= fuel)%nat ->
    (start + 800 * (count - 1) < length text)%nat ->
    (length text <= start + 800 * count)%nat ->
    splitter_loop fuel text CHUNK_SIZE CHUNK_OVERLAP chunks (Z.of_nat start)
    = Some (chunks ++ windows_from text start count).
Proof.
  unfold CHUNK_SIZE, CHUNK_OVERLAP.
  induction count as [|count IH]; intros fuel chunks start Hfuel Hlo Hhi.
  - lia.
  - destruct fuel as [|fuel]; [lia|].
    cbn [splitter_loop windows_from]. unfold len.
    destruct (Z.ltb_spec (Z.of_nat start) (Z.of_nat (length text))) as [_|?]; [|lia].
    assert (Hchunk :
      slice text (Z.of_nat start)
            (Z.min (Z.of_nat start + 1000) (Z.of_nat (length text)))
      = take 1000 (drop start text)).
    { replace (Z.min (Z.of_nat start + 1000) (Z.of_nat (length text)))
        with (Z.of_nat (Nat.min (start + 1000) (length text))) by lia.
      rewrite slice_nat.
      destruct (Nat.le_gt_cases (length text) (start + 1000)).
      - rewrite !take_ge; [done | rewrite length_drop; lia | rewrite length_drop; lia].
      - f_equal. lia. }
    rewrite Hchunk.
    replace (Z.of_nat start + (1000 - 200)) with (Z.of_nat (start + 800)) by lia.
    destruct (Z.geb_spec (Z.of_nat (start + 800))
                (Z.min (Z.of_nat start + 1000) (Z.of_nat (length text)))) as [Hge|Hlt].
    + destruct (Z.ltb_spec (Z.of_nat (start + 800)) (Z.of_nat (length text))); [lia|].
      assert (count = O) by lia. subst count. reflexivity.
    + rewrite (IH fuel (chunks ++ [take 1000 (drop start text)]) (start + 800)%nat);
        [ by rewrite <- app_assoc | lia | lia | lia ].
Qed.

Lemma window_count_bounds (n : nat) :
  (0 < n)%nat ->
  let count := Z.to_nat (ceil_div (Z.of_nat n) 800) in
  (800 * (count - 1) < n)%nat /\ (n <= 800 * count)%nat /\ (1 <= count <= n)%nat.
Proof.
  intros Hn count. subst count. unfold ceil_div.
  pose proof (Z.div_mod (Z.of_nat n + 800 - 1) 800 ltac:(lia)) as Hdm.
  pose proof (Z.mod_pos_bound (Z.of_nat n + 800 - 1) 800 ltac:(lia)) as Hmod.
  set (q := (Z.of_nat n + 800 - 1) / 800) in *.
  assert (1 <= q) by lia.
  repeat split; lia.
Qed.

Lemma splitter_windows_closed_form (text : str) :
  CHUNK_SIZE < len text ->
  splitter_windows text CHUNK_SIZE CHUNK_OVERLAP
  = Some (windows_from text 0 (Z.to_nat (ceil_div (len text) 800))).
Proof.
  unfold CHUNK_SIZE, len. intros Hlong.
  destruct (window_count_bounds (length text)) as (Hlo & Hhi & Hc); [lia|].
  unfold splitter_windows.
  change 0 with (Z.of_nat 0).
  rewrite (splitter_loop_windows text (Z.to_nat (ceil_div (Z.of_nat (length text)) 800)));
    [done | lia | lia | lia].
Qed.

Lemma trimmed_windows_concat (text : str) :
  forall count start,
    concat (map (drop 200) (windows_from text start count))
    = take (800 * count) (drop (start + 200) text).
Proof.
  induction count as [|count IH]; intros start.
  - by rewrite Nat.mul_0_r, take_0.
  - cbn [windows_from map concat]. rewrite IH.
    replace (take 1000 (drop start text))
      with (take (200 + 800) (drop start text)) by done.
    rewrite <- take_drop_commute, drop_drop.
    replace (start + 800 + 200)%nat with (start + 200 + 800)%nat by lia.
    rewrite <- (drop_drop text 800 (start + 200)).
    rewrite take_take_drop. f_equal. lia.
Qed.

Lemma windows_reconstruct (text : str) (count : nat) :
  (1 <= count)%nat -> (length text <= 800 * count)%nat ->
  concat (overlap_trimmed 200 (windows_from text 0 count)) = text.
Proof.
  intros Hc Hn. destruct count as [|count]; [lia|].
  cbn [windows_from overlap_trimmed concat].
  rewrite trimmed_windows_concat, drop_0. cbn [Nat.add].
  change (800 + 200)%nat with 1000%nat.
  rewrite take_take_drop. apply take_ge. lia.
Qed.

Lemma filter_all_kept {A} (f : A -> bool) (l : list A) :
  forallb f l = true -> List.filter f l = l.
Proof.
  induction l as [|x l IH]; cbn; [done|].
  intros [Hx Hl]%andb_prop. rewrite Hx, IH; done.
Qed.

Lemma filter_kept_Forall (l : list str) :
  Forall (fun chunk => strip chunk <> []) (List.filter kept l).
Proof.
  apply Forall_forall. intros chunk Hin.
  apply list_elem_of_In, filter_In in Hin as [_ Hk].
  unfold kept in Hk. intros Heq. rewrite Heq in Hk. discriminate.
Qed.

(** What the splitter returns for a text longer than the window. *)
Lemma splitter_long_returns (text : str) :
  CHUNK_SIZE < len text ->
  recursive_character_text_splitter text
  = Some (List.filter kept (windows_from text 0 (Z.to_nat (ceil_div (len text) 800)))).
Proof.
  intros Hlong.
  unfold recursive_character_text_splitter, recursive_character_text_splitter_with.
  destruct (Z.leb_spec (len text) CHUNK_SIZE); [lia|].
  by rewrite (splitter_windows_closed_form text Hlong).
Qed.

(** C1 (as amended).  For every text longer than the window, the loop of the
    splitter ends and cuts [ceil(len / (window - overlap))] windows;
    concatenating them overlap-trimmed gives back the text exactly; the
    splitter returns these windows without the whitespace-only ones, hence
    all of them when none is whitespace-only. *)
Theorem splitter_long_text (text : str) :
  CHUNK_SIZE < len text ->
  exists windows,
    splitter_windows text CHUNK_SIZE CHUNK_OVERLAP = Some windows /\
    len windows = ceil_div (len text) (CHUNK_SIZE - CHUNK_OVERLAP) /\
    concat (overlap_trimmed (Z.to_nat CHUNK_OVERLAP) windows) = text /\
    recursive_character_text_splitter text = Some (List.filter kept windows) /\
    (forallb kept windows = true ->
     recursive_character_text_splitter text = Some windows).
Proof.
  intros Hlong.
  pose proof (splitter_windows_closed_form text Hlong) as Hw.
  set (count := Z.to_nat (ceil_div (len text) 800)) in *.
  destruct (window_count_bounds (length text)) as (Hlo & Hhi & Hc);
    [unfold CHUNK_SIZE, len in Hlong; lia|].
  fold (len text) in Hlo, Hhi, Hc. fold count in Hlo, Hhi, Hc.
  pose proof (splitter_long_returns text Hlong) as Hret. fold count in Hret.
  exists (windows_from text 0 count). repeat split.
  - exact Hw.
  - unfold len at 1. rewrite windows_from_length. subst count.
    unfold CHUNK_SIZE, CHUNK_OVERLAP. change (1000 - 200) with 800.
    unfold ceil_div, len in *. lia.
  - change (Z.to_nat CHUNK_OVERLAP) with 200%nat.
    apply windows_reconstruct; lia.
  - exact Hret.
  - intros Hall. by rewrite Hret, filter_all_kept.
Qed.

Lemma splitter_long_text_witness :
  CHUNK_SIZE < len text_1700 /\
  exists windows,
    splitter_windows text_1700 CHUNK_SIZE CHUNK_OVERLAP = Some windows /\
    len windows = ceil_div (len text_1700) (CHUNK_SIZE - CHUNK_OVERLAP) /\
    concat (overlap_trimmed (Z.to_nat CHUNK_OVERLAP) windows) = text_1700 /\
    recursive_character_text_splitter text_1700 = Some (List.filter kept windows) /\
    (forallb kept windows = true ->
     recursive_character_text_splitter text_1700 = Some windows).
Proof.
  assert (H : CHUNK_SIZE < len text_1700) by (vm_compute; reflexivity).
  split; [exact H | exact (splitter_long_text text_1700 H)].
Defined.

(** C1 as stated fails on 1700 characters: the splitter returns three
    chunks, the last one lying wholly inside the second, where the stated
    count [ceil((len - overlap) / (window - overlap))] is two. *)
Lemma splitter_count_counterexample :
  CHUNK_SIZE < len text_1700 /\
  recursive_character_text_splitter text_1700
  = Some [repeat "a"%char 1000; repeat "a"%char 900; repeat "a"%char 100] /\
  ceil_div (len text_1700 - CHUNK_OVERLAP) (CHUNK_SIZE - CHUNK_OVERLAP) = 2.
Proof. vm_compute. repeat split; reflexivity. Qed.

(** A window of whitespace only is dropped, and then the overlap-trimmed
    chunks no longer add up to the text. *)
Lemma splitter_blank_window_example :
  CHUNK_SIZE < len text_blank_window /\
  exists chunks,
    recursive_character_text_splitter text_blank_window = Some chunks /\
    len chunks = 3 /\
    len (concat (overlap_trimmed 200 chunks)) = 1800 /\
    len text_blank_window = 2600.
Proof.
  split; [vm_compute; reflexivity|].
  eexists. split; [vm_compute; reflexivity|].
  vm_compute. repeat split; reflexivity.
Qed.


(** C4 (as amended).  For every text that is not blank: the splitter
    returns; no returned chunk is empty after trimming; and when the text
    is at most as long as the window the result is the single chunk [text],
    as given, untrimmed. *)
Theorem splitter_short_text (text : str) :
  kept text = true ->
  exists chunks,
    recursive_character_text_splitter text = Some chunks /\
    Forall (fun chunk => strip chunk <> []) chunks /\
    (len text <= CHUNK_SIZE -> chunks = [text]).
Proof.
  intros Hkept.
  destruct (Z.le_gt_cases (len text) CHUNK_SIZE) as [Hshort|Hlong].
  - exists [text]. split; [|split; [|done]].
    + unfold recursive_character_text_splitter, recursive_character_text_splitter_with.
      by destruct (Z.leb_spec (len text) CHUNK_SIZE); [|lia].
    + apply Forall_cons_2; [|apply Forall_nil_2].
      unfold kept in Hkept. intros Heq. rewrite Heq in Hkept. discriminate.
  - rewrite splitter_long_returns by lia. eexists. split; [done|].
    split; [apply filter_kept_Forall | lia].
Qed.

Lemma splitter_short_text_witness :
  kept (lit " a") = true /\
  exists chunks,
    recursive_character_text_splitter (lit " a") = Some chunks /\
    Forall (fun chunk => strip chunk <> []) chunks /\
    (len (lit " a") <= CHUNK_SIZE -> chunks = [lit " a"]).
Proof.
  assert (H : kept (lit " a") = true) by reflexivity.
  split; [exact H | exact (splitter_short_text (lit " a") H)].
Defined.

(** C4 as stated fails: a short text comes back as it is, not trimmed, and a
    short blank text comes back as a chunk that is empty after trimming. *)
Lemma splitter_short_counterexample :
  len (lit " a") <= CHUNK_SIZE /\
  recursive_character_text_splitter (lit " a") = Some [lit " a"] /\
  [lit " a"] <> [strip (lit " a")] /\
  recursive_character_text_splitter (lit "  ") = Some [lit "  "] /\
  strip (lit "  ") = [].
Proof.
  split; [vm_compute; discriminate|].
  split; [reflexivity|].
  split; [intros H; vm_compute in H; discriminate|].
  split; reflexivity.
Qed.

End Splitter.

(** ** The page loop of the indexer *)

Section Pages.
Import Py indexer_vision Spec.

Lemma page_step_nonblank (pdf_name : str) (st : page_loop_state) (page_content : str) :
  nonblank page_content = true ->
  current_page_num (page_step pdf_name st page_content)
  = next_page_num pdf_name (current_page_num st) page_content /\
  page_data_list (page_step pdf_name st page_content)
  = page_data_list st ++
    from_option (fun e => [e]) []
      (page_entry (page_content,
                   page_num_for_meta
                     (next_page_num pdf_name (current_page_num st) page_content))).
Proof.
  unfold nonblank, page_step, page_entry. intros ->. cbn [fst snd].
  destruct (truthy (main_text (parse_vision_markdown_page page_content)));
    cbn; [done | by rewrite app_nil_r].
Qed.

Lemma page_step_blank (pdf_name : str) (st : page_loop_state) (page_content : str) :
  nonblank page_content = false -> page_step pdf_name st page_content = st.
Proof. unfold nonblank, page_step. by intros ->. Qed.

(** The loop stores, for the non-blank segments in order, the entries of
    the trace. *)
Lemma page_loop_trace (pdf_name : str) (pages : list str) :
  forall st,
    page_data_list (fold_left (page_step pdf_name) pages st)
    = page_data_list st ++
      omap page_entry (page_trace pdf_name (current_page_num st) pages).
Proof.
  induction pages as [|page_content pages IH]; intros st; cbn [fold_left page_trace].
  - by rewrite app_nil_r.
  - rewrite IH. fold (nonblank page_content).
    destruct (nonblank page_content) eqn:Hnb.
    + destruct (page_step_nonblank pdf_name st page_content Hnb) as [-> ->].
      cbn [omap list_omap].
      destruct (page_entry _); cbn [from_option]; by rewrite <- app_assoc.
    + by rewrite page_step_blank.
Qed.

Lemma page_num_for_meta_min (n : Z) : 1 <= page_num_for_meta n.
Proof. unfold page_num_for_meta. destruct (Z.gtb_spec n 0); lia. Qed.

Lemma page_trace_min (pdf_name : str) (pages : list str) :
  forall n, Forall (fun e => 1 <= e.2) (page_trace pdf_name n pages).
Proof.
  induction pages as [|page_content pages IH]; intros n; cbn [page_trace].
  - apply Forall_nil_2.
  - destruct (truthy (strip page_content)); [|apply IH].
    apply Forall_cons_2; [apply page_num_for_meta_min | apply IH].
Qed.

Lemma page_entry_number (e : str * Z) entry :
  page_entry e = Some entry -> entry.1.2 = e.2.
Proof.
  unfold page_entry.
  destruct (truthy _); [|discriminate]. by intros [= <-].
Qed.

(** After the counter has reached [c], segments that are never taken for
    the title are numbered [c + 1], [c + 2], ... *)
Lemma page_trace_counts (pdf_name : str) (pages : list str) :
  forall c : nat,
    Forall (fun seg => nonblank seg = true ->
                       is_initial_chunk pdf_name seg = false) pages ->
    page_trace pdf_name (Z.of_nat c) pages
    = imap (fun k seg => (seg, Z.of_nat (c + S k))) (List.filter nonblank pages).
Proof.
  induction pages as [|seg pages IH]; intros c Hall; cbn [page_trace List.filter].
  - done.
  - apply Forall_cons_1 in Hall as [Hseg Hall]. fold (nonblank seg).
    destruct (nonblank seg) eqn:Hnb.
    + unfold next_page_num. rewrite (Hseg eq_refl). cbn [negb imap].
      replace (Z.of_nat c + 1) with (Z.of_nat (S c)) by lia.
      rewrite (IH (S c) Hall).
      assert (Hmeta : page_num_for_meta (Z.of_nat (S c)) = Z.of_nat (c + 1)).
      { unfold page_num_for_meta. destruct (Z.gtb_spec (Z.of_nat (S c)) 0); lia. }
      rewrite Hmeta. f_equal.
      apply imap_ext. intros k x _. cbn. do 2 f_equal. lia.
    + by apply IH.
Qed.

(** C2 (as amended).  Every non-blank segment is put to the title
    heuristic, and moves the counter by exactly one unless the document
    name occurs in its first line.  So when the first segment is the title
    and no later non-blank segment has the document name in its first line,
    the k-th non-blank segment after the title gets page number k (the title
    itself gets 1); the stored entries are those of the segments with a
    non-empty main text; and no stored page number is below 1. *)
Theorem title_then_pages (pdf_name title : str) (rest : list str) :
  nonblank title = true ->
  is_initial_chunk pdf_name title = true ->
  Forall (fun seg => nonblank seg = true ->
                     is_initial_chunk pdf_name seg = false) rest ->
  (forall st seg, nonblank seg = true ->
     current_page_num (page_step pdf_name st seg)
     = current_page_num st + (if is_initial_chunk pdf_name seg then 0 else 1)) /\
  page_trace pdf_name 0 (title :: rest)
  = (title, 1) :: imap (fun k seg => (seg, Z.of_nat (S k))) (List.filter nonblank rest) /\
  page_data_list (page_loop pdf_name (title :: rest))
  = omap page_entry (page_trace pdf_name 0 (title :: rest)) /\
  Forall (fun entry => 1 <= entry.1.2) (page_data_list (page_loop pdf_name (title :: rest))).
Proof.
  intros Hnb Htitle Hrest.
  assert (Hloop : forall pages,
    page_data_list (page_loop pdf_name pages)
    = omap page_entry (page_trace pdf_name 0 pages)).
  { intros pages. unfold page_loop. by rewrite page_loop_trace. }
  split; [|split; [|split]].
  - intros st seg Hseg.
    destruct (page_step_nonblank pdf_name st seg Hseg) as [-> _].
    unfold next_page_num. destruct (is_initial_chunk pdf_name seg); cbn; lia.
  - cbn [page_trace]. fold (nonblank title). rewrite Hnb.
    unfold next_page_num. rewrite Htitle. cbn [negb]. f_equal.
    change 0 with (Z.of_nat 0). by rewrite (page_trace_counts pdf_name rest 0 Hrest).
  - apply Hloop.
  - rewrite Hloop. apply Forall_forall. intros entry Hin.
    apply list_elem_of_omap in Hin as (e & He & Hentry).
    rewrite (page_entry_number e entry Hentry).
    pose proof (page_trace_min pdf_name (title :: rest) 0) as Hmin.
    rewrite Forall_forall in Hmin. by apply Hmin.
Qed.

Lemma title_then_pages_witness :
  nonblank sample_title = true /\
  is_initial_chunk (lit "lec") sample_title = true /\
  page_trace (lit "lec") 0 (sample_title :: sample_rest)
  = (sample_title, 1)
    :: imap (fun k seg => (seg, Z.of_nat (S k))) (List.filter nonblank sample_rest) /\
  Forall (fun entry => 1 <= entry.1.2)
         (page_data_list (page_loop (lit "lec") (sample_title :: sample_rest))).
Proof.
  assert (H1 : nonblank sample_title = true) by reflexivity.
  assert (H2 : is_initial_chunk (lit "lec") sample_title = true) by reflexivity.
  assert (H3 : Forall (fun seg => nonblank seg = true ->
                         is_initial_chunk (lit "lec") seg = false) sample_rest).
  { unfold sample_rest.
    repeat (apply Forall_cons_2; [intros _; reflexivity|]). apply Forall_nil_2. }
  destruct (title_then_pages (lit "lec") sample_title sample_rest H1 H2 H3)
    as (_ & Htrace & _ & Hmin).
  exact (conj H1 (conj H2 (conj Htrace Hmin))).
Defined.

(** C2 as stated fails: the heuristic is applied to every segment, not only
    to the first.  Here the second segment also has the document name in
    its first line, so it does not move the counter, and the second content
    segment after the title gets page number 1, not 2. *)
Lemma title_heuristic_counterexample :
  is_initial_chunk (lit "lec") (lit "lec") = true /\
  map (fun entry => (entry.1.1, entry.1.2))
      (page_data_list (page_loop (lit "lec") sample_pages_title_twice))
  = [(lit "lec", 1); (lit "lec intro", 1); (lit "x", 1)].
Proof. split; reflexivity. Qed.

(** *** Segments without main text *)

Lemma lstrip_by_nil (p : ascii -> bool) (s : str) :
  lstrip_by p s = [] <-> forallb p s = true.
Proof.
  induction s as [|c s IH]; cbn; [done|].
  destruct (p c); cbn; [done|]. split; discriminate.
Qed.

Lemma lstrip_by_head (p : ascii -> bool) (s r : str) (c : ascii) :
  lstrip_by p s = c :: r -> p c = false.
Proof.
  induction s as [|d s IH]; cbn; [discriminate|].
  destruct (p d) eqn:Hd; [done|]. by intros [= <- _].
Qed.

Lemma strip_by_nil (p : ascii -> bool) (s : str) :
  strip_by p s = [] <-> forallb p s = true.
Proof.
  unfold strip_by, rstrip_by. split.
  - intros H. apply (f_equal (@rev ascii)) in H. rewrite rev_involutive in H.
    cbn in H. apply lstrip_by_nil in H. rewrite forallb_forall in H.
    destruct (lstrip_by p s) as [|c r] eqn:Hl; [by apply lstrip_by_nil|].
    exfalso. pose proof (lstrip_by_head _ _ _ _ Hl) as Hc.
    rewrite (H c) in Hc; [discriminate|]. apply in_rev. rewrite rev_involutive. by left.
  - intros H. apply lstrip_by_nil in H. by rewrite H.
Qed.

Lemma first_line_in_before_h4 (s : str) (c : ascii) :
  In c (first_line s) -> In c (before_h4 s).
Proof.
  induction s as [|d s IH]; cbn [first_line before_h4]; [done|].
  destruct (startswith (d :: s) h4_marker) eqn:Hm.
  - change h4_marker with ("010"%char :: lit "#### ") in Hm.
    cbn [startswith] in Hm. apply andb_prop in Hm as [Hd _].
    apply Ascii.eqb_eq in Hd. subst d. done.
  - destruct (islinebreak d); [done|]. cbn. intros [->|H]; auto.
Qed.

Lemma startswith_In (s p : str) (c : ascii) :
  startswith s p = true -> In c p -> In c s.
Proof.
  revert s. induction p as [|d p IH]; intros s Hs Hin; [done|].
  destruct s as [|e s]; [discriminate|]. cbn [startswith] in Hs.
  apply andb_prop in Hs as [Hd Hs]. apply Ascii.eqb_eq in Hd. subst e.
  destruct Hin as [->|Hin]; [by left | right; eauto].
Qed.

Lemma contains_In (s sub : str) (c : ascii) :
  contains s sub = true -> In c sub -> In c s.
Proof.
  induction s as [|d s IH]; cbn [contains]; intros H Hin.
  - rewrite orb_false_r in H. eauto using startswith_In.
  - apply orb_prop in H as [H|H]; [eauto using startswith_In | right; eauto].
Qed.

(** A segment without main text is taken for the title only under a
    document name that is blank. *)
Lemma empty_main_text_not_initial (pdf_name page_content : str) :
  nonblank pdf_name = true ->
  main_text (parse_vision_markdown_page page_content) = [] ->
  is_initial_chunk pdf_name page_content = false.
Proof.
  intros Hname Hmain. cbn in Hmain. apply strip_by_nil in Hmain.
  rewrite forallb_forall in Hmain.
  unfold is_initial_chunk. destruct (truthy page_content); [|done].
  destruct (contains (first_line page_content) pdf_name) eqn:Hc; [|done].
  exfalso. unfold nonblank in Hname.
  assert (Hall : forallb isspace pdf_name = true).
  { apply forallb_forall. intros c Hin. apply Hmain.
    by eapply first_line_in_before_h4, contains_In. }
  apply strip_by_nil in Hall. unfold strip in Hname. by rewrite Hall in Hname.
Qed.

(** C10 (as amended).  A non-blank segment whose parsed main text is empty,
    in a file whose document name is not blank, adds nothing to the list of
    pages to chunk, whatever its description fields hold, and moves the page
    counter by one. *)
Theorem empty_main_text_page (pdf_name : str) (st : page_loop_state) (page_content : str) :
  nonblank pdf_name = true ->
  nonblank page_content = true ->
  main_text (parse_vision_markdown_page page_content) = [] ->
  page_step pdf_name st page_content
  = {| current_page_num := current_page_num st + 1;
       page_data_list := page_data_list st |}.
Proof.
  intros Hname Hnb Hmain.
  pose proof (empty_main_text_not_initial _ _ Hname Hmain) as Hinit.
  unfold nonblank in Hnb. unfold page_step, next_page_num.
  by rewrite Hnb, Hmain, Hinit.
Qed.

Lemma empty_main_text_page_witness :
  equation_descriptions
    (parse_vision_markdown_page (lit (nl ++ "#### Key Equations" ++ nl ++ "E = m c^2")))
  = lit "E = m c^2" /\
  page_step (lit "lec") {| current_page_num := 1; page_data_list := [] |}
            (lit (nl ++ "#### Key Equations" ++ nl ++ "E = m c^2"))
  = {| current_page_num := 1 + 1; page_data_list := [] |}.
Proof.
  split; [reflexivity|].
  exact (empty_main_text_page (lit "lec")
           {| current_page_num := 1; page_data_list := [] |}
           (lit (nl ++ "#### Key Equations" ++ nl ++ "E = m c^2"))
           eq_refl eq_refl eq_refl).
Defined.

(** A segment that starts with the first description heading has that
    heading and its body for main text, and is indexed; after a blank line
    the same segment has no main text, while its three fields are parsed. *)
Lemma headings_only_example :
  parse_vision_markdown_page (lit headings_only)
  = {| main_text := lit ("#### Visual Elements Description" ++ nl ++ "A diagram");
       visual_descriptions := [];
       table_descriptions := lit "A table";
       equation_descriptions := lit "E = m c^2" |} /\
  parse_vision_markdown_page (lit (nl ++ headings_only))
  = {| main_text := [];
       visual_descriptions := lit "A diagram";
       table_descriptions := lit "A table";
       equation_descriptions := lit "E = m c^2" |} /\
  page_data_list
    (page_step (lit "lec") {| current_page_num := 1; page_data_list := [] |}
       (lit (nl ++ headings_only))) = [].
Proof. repeat split; vm_compute; reflexivity. Qed.

(** C10 as stated fails on a blank segment, whose parsed main text is empty
    too: the loop passes over it and the counter stays.  It also fails
    under the empty document name of a file called _vision_processed.md,
    which occurs in every first line. *)
Lemma empty_main_text_counterexample :
  main_text (parse_vision_markdown_page (lit nl)) = [] /\
  page_step (lit "lec") {| current_page_num := 1; page_data_list := [] |} (lit nl)
  = {| current_page_num := 1; page_data_list := [] |} /\
  infer_pdf_name (lit "_vision_processed") = [] /\
  main_text (parse_vision_markdown_page (lit (nl ++ "#### Key Equations" ++ nl ++ "E = m c^2")))
  = [] /\
  page_step [] {| current_page_num := 1; page_data_list := [] |}
            (lit (nl ++ "#### Key Equations" ++ nl ++ "E = m c^2"))
  = {| current_page_num := 1; page_data_list := [] |}.
Proof. repeat split; reflexivity. Qed.

End Pages.

(** ** Failed embeddings *)

Import indexer_vision Spec.

Section FileFailure.
Import Py.
Context {embedding : Type}.
Implicit Types (f : md_file embedding) (results : list (option (list embedding))).

Lemma combine_results_failed results :
  forall acc, In None results -> (combine_results results acc).1 = false.
Proof.
  induction results as [|[b|] results IH]; intros acc Hin; cbn.
  - done.
  - destruct Hin as [|Hin]; [discriminate | by apply IH].
  - done.
Qed.

Lemma combine_results_complete results :
  forall acc, ~ In None results ->
    combine_results results acc = (true, acc ++ concat (omap id results)).
Proof.
  induction results as [|[b|] results IH]; intros acc Hnin; cbn.
  - by rewrite app_nil_r.
  - rewrite IH; [by rewrite <- app_assoc | intros H; apply Hnin; by right].
  - exfalso. apply Hnin. by left.
Qed.

Lemma classic_In_None results : In None results \/ ~ In None results.
Proof.
  induction results as [|r results IH]; cbn; [tauto|].
  destruct r as [b|]; [|by left; left].
  destruct IH as [IH|IH]; [by left; right|].
  right. intros [H|H]; [discriminate | done].
Qed.



Lemma collect_results_skip f (before after : list (md_file embedding)) :
  process_md_file_async f = Some [] ->
  collect_results (before ++ f :: after)
  = collect_results (before ++ after).
Proof.
  intros Hf. induction before as [|g before IH]; cbn.
  - rewrite Hf. cbn. by destruct (collect_results after).
  - by rewrite IH.
Qed.

(** C5.  When a batch of a file fails to embed, or the embeddings returned
    for the file are not as many as its chunks, the file yields no record,
    and the run adds to the collection exactly what it adds without that
    file. *)
Theorem failed_file_contributes_nothing f (text : str)
    (chunks : list str) (metas : list metadata) :
  content f = Some text ->
  file_chunks f text = Some (chunks, metas) ->
  In None (embedding_results f chunks)
  \/ length (concat (omap id (embedding_results f chunks))) <> length chunks ->
  process_md_file_async f = Some [] /\
  forall (before after : list (md_file embedding)) (add_ok : nat -> bool),
    main_async (before ++ f :: after) add_ok
    = main_async (before ++ after) add_ok.
Proof.
  intros Hcontent Hchunks Hfail.
  assert (Hnone : process_md_file_async f = Some []).
  { unfold process_md_file_async. rewrite Hcontent, Hchunks.
    cbn -[embedding_results combine_results].
    destruct (truthy chunks); [|done].
    destruct (classic_In_None (embedding_results f chunks)) as [Hin|Hnin].
    - pose proof (combine_results_failed _ [] Hin) as Hok.
      destruct (combine_results (embedding_results f chunks) []) as [ok embs].
      cbn in Hok. subst ok. done.
    - rewrite (combine_results_complete _ [] Hnin). cbn [app andb].
      destruct Hfail as [Hin|Hlen]; [done|].
      by destruct (Nat.eqb_spec (length (concat (omap id (embedding_results f chunks))))
                     (length chunks)). }
  split; [exact Hnone|].
  intros before after add_ok. unfold main_async.
  by rewrite (collect_results_skip f before after Hnone).
Qed.

End FileFailure.

Lemma failed_file_contributes_nothing_witness :
  process_md_file_async sample_failing_file = Some [] /\
  main_async [sample_good_file; sample_failing_file] (fun _ => true)
  = main_async [sample_good_file] (fun _ => true) /\
  main_async [sample_good_file] (fun _ => true)
  = Some [(Py.lit "id0", 7%nat, Py.lit "lab",
           {| source_file := Py.lit "lab"; source_page := 1;
              meta_visual := []; meta_table := []; meta_equation := [] |});
          (Py.lit "id1", 7%nat, Py.lit "Hello",
           {| source_file := Py.lit "lab"; source_page := 1;
              meta_visual := []; meta_table := []; meta_equation := [] |})].
Proof.
  edestruct (failed_file_contributes_nothing sample_failing_file sample_content)
    as [Hnone Hrun].
  - reflexivity.
  - vm_compute. reflexivity.
  - left. vm_compute. by left.
  - split; [exact Hnone|]. split; [|vm_compute; reflexivity].
    exact (Hrun [sample_good_file] [] (fun _ => true)).
Defined.

(** ** Gathered results keep the order of the tasks *)

Section Gather.
Context {A : Type}.
Implicit Types (results : list A) (slots : list (option A)) (schedule : list nat).

Lemma complete_length results slots i :
  length (asyncio.complete results slots i) = length slots.
Proof.
  unfold asyncio.complete. destruct (results !! i); [apply length_insert | done].
Qed.

Lemma complete_lookup results slots i j :
  length slots = length results ->
  asyncio.complete results slots i !! j
  = if decide (i = j) then
      match results !! j with Some a => Some (Some a) | None => slots !! j end
    else slots !! j.
Proof.
  intros Hlen. unfold asyncio.complete. case_decide as Hij.
  - subst j. destruct (results !! i) eqn:Hi; [|done].
    apply list_lookup_insert_eq. rewrite Hlen. by eapply lookup_lt_Some.
  - destruct (results !! i); [by apply list_lookup_insert_ne | done].
Qed.

(** After the completions of [schedule], a slot holds the result of its
    awaitable if that one has completed, and is as before otherwise. *)
Lemma completions_lookup results schedule :
  forall slots j,
    length slots = length results ->
    fold_left (asyncio.complete results) schedule slots !! j
    = if decide (j ∈ schedule) then
        match results !! j with Some a => Some (Some a) | None => slots !! j end
      else slots !! j.
Proof.
  induction schedule as [|i schedule IH]; intros slots j Hlen; cbn [fold_left].
  - case_decide as Hin; [by apply elem_of_nil in Hin | done].
  - rewrite IH by (by rewrite complete_length).
    rewrite complete_lookup by done.
    destruct (decide (i = j)) as [->|Hij].
    + rewrite (decide_True (P := j ∈ j :: schedule)) by left.
      case_decide; by destruct (results !! j).
    + destruct (decide (j ∈ schedule)) as [Hin|Hnin].
      * by rewrite (decide_True (P := j ∈ i :: schedule)) by (by right).
      * rewrite (decide_False (P := j ∈ i :: schedule)); [done|].
        intros [?|?]%elem_of_cons; [by subst | done].
Qed.

Lemma completions_length results schedule :
  forall slots,
    length (fold_left (asyncio.complete results) schedule slots) = length slots.
Proof.
  induction schedule as [|i schedule IH]; intros slots; cbn [fold_left]; [done|].
  by rewrite IH, complete_length.
Qed.

(** Whatever the completion order, [gather] returns the results in the
    order of the awaitables. *)
Lemma gather_in_task_order results schedule :
  schedule ≡ₚ seq 0 (length results) ->
  asyncio.gather schedule results = Some results.
Proof.
  intros Hperm. unfold asyncio.gather.
  assert (Hslots :
    fold_left (asyncio.complete results) schedule (replicate (length results) None)
    = Some <$> results).
  { apply list_eq. intros j.
    rewrite completions_lookup by apply length_replicate.
    rewrite list_lookup_fmap.
    destruct (results !! j) as [a|] eqn:Hj; cbn.
    - rewrite decide_True; [done|].
      rewrite Hperm. apply elem_of_seq. apply lookup_lt_Some in Hj. lia.
    - apply lookup_ge_None in Hj.
      case_decide; apply lookup_replicate_None; lia. }
  rewrite Hslots. by apply mapM_fmap_Some.
Qed.

End Gather.

(** ** The guide generator *)

Section GuideOrder.
Import Py create_exam_guide.
Context {embedding distance : Type} (format_4f : distance -> str).
Implicit Types (sv : services embedding distance) (topics : list str).




End GuideOrder.

Lemma sample_schedule_complete : sample_schedule ≡ₚ seq 0 (length sample_topics).
Proof. apply (bool_decide_unpack _). by vm_compute. Qed.


(** The sample run: the slow first topic still comes first. *)
Lemma guide_sample_run :
  create_exam_guide.explanations (fun _ => []) sample_guide_services 10
    sample_topics sample_schedule
  = Some [Py.lit "## A"; create_exam_guide.error_task (Py.lit "B"); Py.lit "## C"].
Proof. reflexivity. Qed.

(** ** The file name of the single-query solver *)

Section SafeFilename.
Import Py rag_exam_solver.

Lemma lstrip_by_decomp (p : ascii -> bool) (s : str) :
  exists lead, s = lead ++ lstrip_by p s /\ forallb p lead = true.
Proof.
  induction s as [|c s (lead & Hs & Hlead)]; [by exists []|].
  cbn [lstrip_by]. destruct (p c) eqn:Hc.
  - exists (c :: lead). cbn. rewrite Hc, Hlead. split; [by f_equal | done].
  - by exists [].
Qed.

Lemma rev_is_reverse {A} (l : list A) : rev l = reverse l.
Proof. apply rev_alt. Qed.

(** What [strip] leaves: the text between a run of stripped characters at
    each end, itself neither starting nor ending with one. *)
Lemma strip_by_decomp (p : ascii -> bool) (s : str) :
  exists lead trail,
    s = lead ++ strip_by p s ++ trail /\
    forallb p lead = true /\ forallb p trail = true /\
    (forall c, head (strip_by p s) = Some c -> p c = false) /\
    (forall c, last (strip_by p s) = Some c -> p c = false).
Proof.
  destruct (lstrip_by_decomp p s) as (lead & Hs & Hlead).
  destruct (lstrip_by_decomp p (rev (lstrip_by p s))) as (trail & Hr & Htrail).
  exists lead, (rev trail). unfold strip_by, rstrip_by.
  set (core := rev (lstrip_by p (rev (lstrip_by p s)))).
  assert (Hl : lstrip_by p s = core ++ rev trail).
  { subst core. rewrite <- rev_app_distr, <- Hr. by rewrite rev_involutive. }
  split; [by rewrite <- Hl|]. split; [done|]. split; [|split].
  - rewrite forallb_forall in *. intros c Hc. apply Htrail. by apply in_rev.
  - intros c Hc. destruct core as [|d core'] eqn:Hcore; [discriminate|].
    injection Hc as ->. cbn in Hl. by eapply lstrip_by_head.
  - intros c Hc. subst core. rewrite rev_is_reverse, last_reverse in Hc.
    apply head_Some in Hc as [r Hc]. by eapply lstrip_by_head.
Qed.

(** C8 (as amended).  The file name is made from the first 50 characters of
    the query with every non-alphanumeric character replaced by an
    underscore: the underscores at both ends are stripped from it, and the
    default name rag_output stands in exactly when nothing is left. *)
Theorem safe_filename_derivation (query : str) :
  exists lead core trail,
    map (fun c => if isalnum c then c else "_"%char) (take 50 query)
    = lead ++ core ++ trail /\
    Forall (fun c => c = "_"%char) lead /\
    Forall (fun c => c = "_"%char) trail /\
    head core <> Some "_"%char /\
    last core <> Some "_"%char /\
    safe_filename query = (if decide (core = []) then lit "rag_output" else core) /\
    save_output query [] [] = Saved (safe_filename query ++ lit ".json") query [] [].
Proof.
  set (replaced := map (fun c => if isalnum c then c else "_"%char) (take 50 query)).
  set (p := fun c => existsb (Ascii.eqb c) (lit "_")).
  assert (Hp : forall c, p c = true -> c = "_"%char).
  { intros c Hc. unfold p in Hc. cbn in Hc. rewrite orb_false_r in Hc.
    by apply Ascii.eqb_eq in Hc. }
  assert (Hp' : p "_"%char = true) by reflexivity.
  destruct (strip_by_decomp p replaced) as (lead & trail & Hs & Hlead & Htrail & Hhd & Hlast).
  exists lead, (strip_by p replaced), trail.
  split; [exact Hs|].
  split; [apply Forall_forall; intros c Hc; apply Hp;
          rewrite forallb_forall in Hlead; by apply Hlead, list_elem_of_In|].
  split; [apply Forall_forall; intros c Hc; apply Hp;
          rewrite forallb_forall in Htrail; by apply Htrail, list_elem_of_In|].
  split; [intros H; apply Hhd in H; congruence|].
  split; [intros H; apply Hlast in H; congruence|].
  split; [|done].
  unfold safe_filename, strip_chars.
  change 0 with (Z.of_nat 0). change 50 with (Z.of_nat 50).
  rewrite slice_nat, drop_0. change (50 - 0)%nat with 50%nat.
  fold replaced. fold p.
  destruct (strip_by p replaced) as [|c core]; cbn [truthy negb].
  - by rewrite decide_True.
  - by rewrite decide_False.
Qed.

(** C8 as stated fails: the underscore that replaces a trailing question
    mark is stripped, and a query of question marks only gets the default
    name although its replaced text is not empty. *)
Lemma safe_filename_counterexample :
  safe_filename (lit "a?") = lit "a" /\
  map (fun c => if isalnum c then c else "_"%char) (slice (lit "a?") 0 50) = lit "a_" /\
  safe_filename (lit "???") = lit "rag_output" /\
  map (fun c => if isalnum c then c else "_"%char) (slice (lit "???") 0 50) = lit "___".
Proof. repeat split; reflexivity. Qed.

End SafeFilename.

(** ** A failed embedding of the query *)

Section EmbeddingFailure.
Import Py.
Context {embedding distance : Type} (format_4f : distance -> str).


End EmbeddingFailure.



(** ** The topic structurer *)

Section Structurer.
Import Py structure_exam_topics.
Variable json_loads : str -> option json.



End Structurer.



(** ** The topic extractor *)

Section Extractor.
Import Py extract_exam_topics.


Lemma code_inj (c d : ascii) : code c = code d -> c = d.
Proof.
  unfold code. intros H.
  rewrite <- (ascii_N_embedding c), <- (ascii_N_embedding d). by rewrite H.
Qed.

Lemma str_leb_total (a : str) : forall b, str_leb a b = true \/ str_leb b a = true.
Proof.
  induction a as [|c a IH]; intros [|d b]; cbn; auto.
  destruct (N.ltb_spec (code c) (code d)); [auto|].
  destruct (N.ltb_spec (code d) (code c)); [auto|].
  assert (Heq : code c = code d) by lia.
  rewrite Heq, N.eqb_refl. apply IH.
Qed.

Lemma str_leb_trans (a : str) :
  forall b c, str_leb a b = true -> str_leb b c = true -> str_leb a c = true.
Proof.
  induction a as [|x a IH]; intros [|y b] [|z c]; cbn; try done.
  destruct (N.ltb_spec (code x) (code y)) as [Hxy|Hxy].
  - intros _. destruct (N.ltb_spec (code y) (code z)) as [Hyz|Hyz].
    + intros _. destruct (N.ltb_spec (code x) (code z)); [done|lia].
    + destruct (N.eqb_spec (code y) (code z)) as [Heq|]; [|discriminate].
      intros _. destruct (N.ltb_spec (code x) (code z)); [done|lia].
  - destruct (N.eqb_spec (code x) (code y)) as [Heq|]; [|discriminate].
    intros Hab. rewrite Heq.
    destruct (N.ltb_spec (code y) (code z)); [done|].
    destruct (N.eqb_spec (code y) (code z)); [|discriminate].
    by apply IH.
Qed.

Lemma str_leb_antisym (a : str) :
  forall b, str_leb a b = true -> str_leb b a = true -> a = b.
Proof.
  induction a as [|x a IH]; intros [|y b]; cbn; try done.
  destruct (N.ltb_spec (code x) (code y)) as [Hxy|Hxy].
  - intros _. destruct (N.ltb_spec (code y) (code x)); [lia|].
    destruct (N.eqb_spec (code y) (code x)); [lia|discriminate].
  - destruct (N.eqb_spec (code x) (code y)) as [Heq|]; [|discriminate].
    intros Hab. rewrite Heq.
    destruct (N.ltb_spec (code y) (code y)); [lia|]. rewrite N.eqb_refl.
    intros Hba. f_equal; [by apply code_inj | by apply IH].
Qed.

#[local] Instance str_le_total : Total str_le.
Proof. intros a b. apply str_leb_total. Qed.

#[local] Instance str_le_trans : Transitive str_le.
Proof. intros a b c. apply str_leb_trans. Qed.

#[local] Instance str_le_antisym : AntiSymm (=) str_le.
Proof. intros a b. apply str_leb_antisym. Qed.



Lemma process_file_elem (unique_topics : gset str) (f : summary_file) (t : str) :
  t ∈ process_file unique_topics f <->
  t ∈ unique_topics \/
  exists content,
    summary_content f = Some content /\ strip content <> [] /\
    t ∈ extract_topics_from_summary (response_text f).
Proof.
  unfold process_file. destruct (summary_content f) as [content|].
  - destruct (strip content) eqn:Hc; cbn [truthy negb].
    + split; [auto|]. intros [?|(c & [= <-] & Hne & _)]; [done|]. by rewrite Hc in Hne.
    + destruct (extract_topics_from_summary (response_text f)) as [|t' ts] eqn:He;
        cbn [truthy].
      * split; [auto|]. intros [?|(? & _ & _ & Hin)]; [done|]. by apply elem_of_nil in Hin.
      * rewrite elem_of_union, elem_of_list_to_set. split.
        -- intros [?|Hin]; [auto|]. right. exists content. by rewrite Hc.
        -- intros [?|(? & _ & _ & Hin)]; auto.
  - split; [auto|]. intros [?|(? & [=] & _)]. done.
Qed.

Lemma accumulate_from_elem (md_files : list summary_file) :
  forall (unique_topics : gset str) (t : str),
    t ∈ fold_left process_file md_files unique_topics <->
    t ∈ unique_topics \/
    exists f content,
      f ∈ md_files /\ summary_content f = Some content /\ strip content <> [] /\
      t ∈ extract_topics_from_summary (response_text f).
Proof.
  induction md_files as [|f md_files IH]; intros unique_topics t; cbn [fold_left].
  - split; [auto|]. intros [?|(f & ? & Hin & _)]; [done|]. by apply elem_of_nil in Hin.
  - rewrite IH, process_file_elem. split.
    + intros [[?|(c & ? & ? & ?)]|(g & c & Hin & ? & ? & ?)]; [auto|right..].
      * exists f, c. split; [left|done].
      * exists g, c. split; [by right|done].
    + intros [?|(g & c & Hin & ? & ? & ?)]; [auto|].
      apply elem_of_cons in Hin as [->|Hin]; [left; right; eauto|].
      right. exists g, c. done.
Qed.




End Extractor.

Import extract_exam_topics.



(** The sample run: two topics from three lines, in order; an upper-case
    suffix is the same extension, an unknown one brings the warning. *)
Lemma topics_sample_run :
  main working_file_system sample_summaries (Py.lit ".txt")
  = {| output_file :=
         Some (Lines (Py.lit ("Carnot cycle" ++ nl ++ "Entropy" ++ nl)));
       extension_warning := false; exit_status := 0;
       uncaught_exception := false |} /\
  main working_file_system sample_summaries (Py.lit ".JSON")
  = {| output_file := Some (JsonArray [Py.lit "Carnot cycle"; Py.lit "Entropy"]);
       extension_warning := false; exit_status := 0;
       uncaught_exception := false |} /\
  main working_file_system sample_summaries (Py.lit ".md")
  = {| output_file :=
         Some (Lines (Py.lit ("Carnot cycle" ++ nl ++ "Entropy" ++ nl)));
       extension_warning := true; exit_status := 0;
       uncaught_exception := false |}.
Proof. repeat split; vm_compute; reflexivity. Qed.

(** * Further properties *)

(** ** The splitter under other windows *)

Section SplitterGeneral.
Import Py indexer_vision Spec Derived.

Lemma windows_from_lookup (text : str) :
  forall count start i,
    (i < count)%nat ->
    windows_from text start count !! i = Some (take 1000 (drop (start + 800 * i) text)).
Proof.
  induction count as [|count IH]; intros start i Hi; [lia|].
  destruct i as [|i]; cbn [windows_from lookup list_lookup].
  - do 3 f_equal. lia.
  - change (windows_from text (start + 800) count !! i
            = Some (take 1000 (drop (start + 800 * S i) text))).
    rewrite IH by lia. do 3 f_equal. lia.
Qed.

Lemma windows_from_In (text : str) (c : str) :
  forall count start,
    In c (windows_from text start count) ->
    exists k, (k < count)%nat /\ c = take 1000 (drop (start + 800 * k) text).
Proof.
  induction count as [|count IH]; intros start Hin; [done|].
  destruct Hin as [<-|Hin].
  - exists 0%nat. split; [lia|]. do 2 f_equal. lia.
  - destruct (IH _ Hin) as (k & Hk & ->). exists (S k). split; [lia|].
    do 2 f_equal. lia.
Qed.

(** Every chunk the splitter returns is the window of the text that starts
    at a multiple of 800 and is cut after 1000 characters: no chunk is
    longer than the window size, and no chunk holds anything that is not in
    the text at that place. *)
Theorem splitter_chunks_are_windows (text : str) (chunks : list str) :
  recursive_character_text_splitter text = Some chunks ->
  Forall (fun chunk =>
            len chunk <= CHUNK_SIZE /\
            exists k : nat,
              Z.of_nat (800 * k) <= Z.max 0 (len text - 1) /\
              chunk = slice text (Z.of_nat (800 * k)) (Z.of_nat (800 * k) + CHUNK_SIZE))
         chunks.
Proof.
  intros Hret. apply Forall_forall. intros chunk Hin.
  assert (Hslice : forall k : nat,
    slice text (Z.of_nat (800 * k)) (Z.of_nat (800 * k) + CHUNK_SIZE)
    = take 1000 (drop (800 * k) text)).
  { intros k. unfold CHUNK_SIZE.
    replace (Z.of_nat (800 * k) + 1000) with (Z.of_nat (800 * k + 1000)) by lia.
    rewrite slice_nat. f_equal. lia. }
  destruct (Z.le_gt_cases (len text) CHUNK_SIZE) as [Hshort|Hlong].
  - unfold recursive_character_text_splitter, recursive_character_text_splitter_with in Hret.
    destruct (Z.leb_spec (len text) CHUNK_SIZE); [|lia].
    injection Hret as <-. apply list_elem_of_singleton in Hin as ->.
    split; [done|]. exists 0%nat. split; [lia|].
    rewrite Hslice, drop_0, take_ge; [done|]. unfold len, CHUNK_SIZE in Hshort. lia.
  - rewrite splitter_long_returns in Hret by lia. injection Hret as <-.
    apply list_elem_of_In, filter_In in Hin as [Hin _].
    apply windows_from_In in Hin as (k & Hk & ->).
    destruct (window_count_bounds (length text)) as (Hlo & Hhi & Hc);
      [unfold len, CHUNK_SIZE in Hlong; lia|].
    fold (len text) in Hlo, Hhi, Hc.
    split.
    + unfold len, CHUNK_SIZE. rewrite length_take. lia.
    + exists k. cbn [Nat.add]. split; [unfold len in *; lia|]. by rewrite Hslice.
Qed.

Lemma splitter_chunks_are_windows_witness :
  Forall (fun chunk =>
            len chunk <= CHUNK_SIZE /\
            exists k : nat,
              Z.of_nat (800 * k) <= Z.max 0 (len text_1700 - 1) /\
              chunk = slice text_1700 (Z.of_nat (800 * k)) (Z.of_nat (800 * k) + CHUNK_SIZE))
         [repeat "a"%char 1000; repeat "a"%char 900; repeat "a"%char 100].
Proof.
  apply (splitter_chunks_are_windows text_1700). vm_compute. reflexivity.
Defined.

(** Two windows cut one after the other overlap by [CHUNK_OVERLAP]
    characters: what the earlier one holds from its 800th character on is
    what the later one starts with. *)
Theorem consecutive_windows_overlap (text : str) (windows : list str)
    (i : nat) (a b : str) :
  CHUNK_SIZE < len text ->
  splitter_windows text CHUNK_SIZE CHUNK_OVERLAP = Some windows ->
  windows !! i = Some a ->
  windows !! S i = Some b ->
  drop (Z.to_nat (CHUNK_SIZE - CHUNK_OVERLAP)) a = take (Z.to_nat CHUNK_OVERLAP) b.
Proof.
  intros Hlong Hw Ha Hb.
  rewrite splitter_windows_closed_form in Hw by done. injection Hw as <-.
  assert (Hi : (S i < Z.to_nat (ceil_div (len text) 800))%nat).
  { apply lookup_lt_Some in Hb. by rewrite windows_from_length in Hb. }
  rewrite windows_from_lookup in Ha by lia. rewrite windows_from_lookup in Hb by lia.
  injection Ha as <-. injection Hb as <-.
  change (Z.to_nat (CHUNK_SIZE - CHUNK_OVERLAP)) with 800%nat.
  change (Z.to_nat CHUNK_OVERLAP) with 200%nat.
  rewrite take_take. change (200 `min` 1000)%nat with 200%nat.
  change 1000%nat with (800 + 200)%nat at 1.
  rewrite <- take_drop_commute, drop_drop. do 2 f_equal. lia.
Qed.

Lemma consecutive_windows_overlap_witness :
  drop (Z.to_nat (CHUNK_SIZE - CHUNK_OVERLAP)) (repeat "a"%char 1000)
  = take (Z.to_nat CHUNK_OVERLAP) (repeat "a"%char 900).
Proof.
  apply (consecutive_windows_overlap text_1700
           [repeat "a"%char 1000; repeat "a"%char 900; repeat "a"%char 100] 0).
  - vm_compute. reflexivity.
  - vm_compute. reflexivity.
  - reflexivity.
  - reflexivity.
Defined.

(** With an overlap that is not smaller than the window, the cursor never
    moves forward and the test after it never fires: whatever the fuel, the
    loop has not ended. *)
Theorem splitter_loop_stuck (text : str) (chunk_size chunk_overlap : Z) :
  0 < chunk_size -> chunk_size <= chunk_overlap ->
  forall (fuel : nat) (chunks : list str) (start_index : Z),
    start_index < len text ->
    splitter_loop fuel text chunk_size chunk_overlap chunks start_index = None.
Proof.
  intros Hsize Hover. induction fuel as [|fuel IH]; intros chunks start Hstart; [done|].
  cbn [splitter_loop].
  destruct (Z.ltb_spec start (len text)); [|lia].
  destruct (Z.geb_spec (start + (chunk_size - chunk_overlap))
              (Z.min (start + chunk_size) (len text))); [lia|].
  apply IH. lia.
Qed.

Lemma splitter_loop_stuck_witness :
  splitter_loop 1000 (lit "abcdef") 2 2 [] 0 = None.
Proof.
  apply (splitter_loop_stuck (lit "abcdef") 2 2); [lia | lia|].
  vm_compute. reflexivity.
Defined.

(** The loop for a window of [size] and a smaller overlap: from an offset
    inside the text it collects the windows [size - overlap] apart. *)
Lemma splitter_loop_general (text : str) (size overlap : nat) :
  (overlap < size)%nat ->
  forall (c fuel : nat) (chunks : list str) (start : nat),
    (S c <= fuel)%nat ->
    (start + (size - overlap) * c < length text)%nat ->
    (length text <= start + (size - overlap) * c + (size - overlap))%nat ->
    splitter_loop fuel text (Z.of_nat size) (Z.of_nat overlap) chunks (Z.of_nat start)
    = Some (chunks ++ windows_general text size (size - overlap) start (S c)).
Proof.
  intros Hov. set (step := (size - overlap)%nat).
  assert (Hstep : (0 < step)%nat) by (subst step; lia).
  induction c as [|c IH]; intros fuel chunks start Hfuel Hlo Hhi;
    (destruct fuel as [|fuel]; [lia|]); cbn [splitter_loop windows_general]; unfold len;
    (destruct (Z.ltb_spec (Z.of_nat start) (Z.of_nat (length text))) as [_|?]; [|nia]).
  all: assert (Hchunk :
      slice text (Z.of_nat start)
            (Z.min (Z.of_nat start + Z.of_nat size) (Z.of_nat (length text)))
      = take size (drop start text)).
  1,3: replace (Z.min (Z.of_nat start + Z.of_nat size) (Z.of_nat (length text)))
        with (Z.of_nat (Nat.min (start + size) (length text))) by lia;
       rewrite slice_nat;
       destruct (Nat.le_gt_cases (length text) (start + size));
       [ rewrite !take_ge; [done | rewrite length_drop; lia | rewrite length_drop; lia]
       | f_equal; lia ].
  all: rewrite Hchunk;
       replace (Z.of_nat start + (Z.of_nat size - Z.of_nat overlap))
         with (Z.of_nat (start + step)) by (subst step; lia).
  - (* the last window *)
    rewrite Nat.mul_0_r, Nat.add_0_r in Hlo, Hhi.
    destruct (Z.geb_spec (Z.of_nat (start + step))
                (Z.min (Z.of_nat start + Z.of_nat size) (Z.of_nat (length text))));
      [|subst step; lia].
    destruct (Z.ltb_spec (Z.of_nat (start + step)) (Z.of_nat (length text))); [lia|done].
  - (* a window followed by others *)
    assert (Hnext : (start + step < length text)%nat) by nia.
    assert (Hrec :
      splitter_loop fuel text (Z.of_nat size) (Z.of_nat overlap)
        (chunks ++ [take size (drop start text)]) (Z.of_nat (start + step))
      = Some ((chunks ++ [take size (drop start text)])
              ++ windows_general text size step (start + step) (S c))).
    { apply IH; [lia | nia | nia]. }
    destruct (Z.geb_spec (Z.of_nat (start + step))
                (Z.min (Z.of_nat start + Z.of_nat size) (Z.of_nat (length text)))) as [Hge|Hlt].
    + destruct (Z.ltb_spec (Z.of_nat (start + step)) (Z.of_nat (length text))); [|lia].
      replace (Z.min (Z.of_nat start + Z.of_nat size) (Z.of_nat (length text)))
        with (Z.of_nat (start + step)) by (subst step; lia).
      rewrite Hrec. by rewrite <- app_assoc.
    + rewrite Hrec. by rewrite <- app_assoc.
Qed.

Lemma general_windows_concat (text : str) (overlap step : nat) :
  forall count start,
    concat (map (drop overlap) (windows_general text (overlap + step) step start count))
    = take (step * count) (drop (start + overlap) text).
Proof.
  induction count as [|count IH]; intros start.
  - by rewrite Nat.mul_0_r, take_0.
  - cbn [windows_general map concat]. rewrite IH.
    rewrite <- take_drop_commute, drop_drop.
    replace (start + step + overlap)%nat with (start + overlap + step)%nat by lia.
    rewrite <- (drop_drop text step (start + overlap)).
    rewrite take_take_drop. f_equal. lia.
Qed.

Lemma windows_general_length text size step start count :
  length (windows_general text size step start count) = count.
Proof. revert start. induction count; intros; simpl; auto. Qed.

(** For every window size and every smaller overlap, a text longer than the
    window is split: the loop ends, the windows are
    [ceil(len / (size - overlap))], they give the text back when each but
    the first is taken without its first [overlap] characters, and the
    splitter returns them without the whitespace-only ones. *)
Theorem splitter_with_smaller_overlap (text : str) (size overlap : nat) :
  (overlap < size)%nat ->
  Z.of_nat size < len text ->
  exists windows,
    splitter_windows text (Z.of_nat size) (Z.of_nat overlap) = Some windows /\
    len windows = ceil_div (len text) (Z.of_nat size - Z.of_nat overlap) /\
    concat (overlap_trimmed overlap windows) = text /\
    Forall (fun w => len w <= Z.of_nat size) windows /\
    recursive_character_text_splitter_with text (Z.of_nat size) (Z.of_nat overlap)
    = Some (List.filter kept windows).
Proof.
  intros Hov Hlong. unfold len in Hlong.
  set (step := (size - overlap)%nat).
  assert (Hstep : (0 < step)%nat) by (subst step; lia).
  set (q := ceil_div (len text) (Z.of_nat size - Z.of_nat overlap)).
  assert (Hq : 1 <= q /\ Z.of_nat step * (q - 1) < Z.of_nat (length text)
               /\ Z.of_nat (length text) <= Z.of_nat step * q).
  { subst q. unfold ceil_div, len.
    replace (Z.of_nat size - Z.of_nat overlap) with (Z.of_nat step) by (subst step; lia).
    pose proof (Z.div_mod (Z.of_nat (length text) + Z.of_nat step - 1) (Z.of_nat step)
                  ltac:(lia)) as Hdm.
    pose proof (Z.mod_pos_bound (Z.of_nat (length text) + Z.of_nat step - 1)
                  (Z.of_nat step) ltac:(lia)) as Hmod.
    set (d := (Z.of_nat (length text) + Z.of_nat step - 1) / Z.of_nat step) in *.
    nia. }
  destruct Hq as (Hq1 & Hqlo & Hqhi).
  set (c := Z.to_nat (q - 1)).
  assert (HSc : Z.of_nat (S c) = q) by (subst c; lia).
  assert (Hlo : (step * c < length text)%nat) by (subst c; nia).
  assert (Hhi : (length text <= step * c + step)%nat) by (subst c; nia).
  assert (Hc : (S c <= S (length text))%nat) by nia.
  assert (Hw : splitter_windows text (Z.of_nat size) (Z.of_nat overlap)
               = Some (windows_general text size step 0 (S c))).
  { unfold splitter_windows. change 0 with (Z.of_nat 0).
    rewrite (splitter_loop_general text size overlap Hov c); [done | lia | ..];
      fold step; lia. }
  exists (windows_general text size step 0 (S c)).
  split; [exact Hw|]. split; [|split; [|split]].
  - unfold len at 1. by rewrite windows_general_length.
  - cbn [windows_general overlap_trimmed concat].
    replace size with (overlap + step)%nat by (subst step; lia).
    rewrite general_windows_concat, drop_0. cbn [Nat.add].
    replace (step + overlap)%nat with (overlap + step)%nat by lia.
    rewrite take_take_drop. apply take_ge. nia.
  - apply Forall_forall. intros w Hin. apply list_elem_of_In in Hin.
    clear -Hin. revert Hin. generalize 0%nat. generalize (S c).
    induction n as [|n IH]; intros start Hin; [done|].
    destruct Hin as [<-|Hin]; [|by eapply IH].
    unfold len. rewrite length_take. lia.
  - unfold recursive_character_text_splitter_with.
    destruct (Z.leb_spec (len text) (Z.of_nat size)); [unfold len in *; lia|].
    by rewrite Hw.
Qed.

Lemma splitter_with_smaller_overlap_witness :
  exists windows,
    splitter_windows (lit "abcdefghij") (Z.of_nat 4) (Z.of_nat 1) = Some windows /\
    len windows = ceil_div (len (lit "abcdefghij")) (Z.of_nat 4 - Z.of_nat 1) /\
    concat (overlap_trimmed 1 windows) = lit "abcdefghij" /\
    Forall (fun w => len w <= Z.of_nat 4) windows /\
    recursive_character_text_splitter_with (lit "abcdefghij") (Z.of_nat 4) (Z.of_nat 1)
    = Some (List.filter kept windows).
Proof.
  apply (splitter_with_smaller_overlap (lit "abcdefghij") 4 1); [lia|].
  vm_compute. reflexivity.
Defined.

End SplitterGeneral.

(** ** Pages without headings, page numbers in order *)

Section PagesMore.
Import Py indexer_vision Spec.

Lemma before_h4_no_heading (s : str) :
  contains s h4_marker = false -> before_h4 s = s.
Proof.
  induction s as [|c s IH]; [done|]. cbn [contains before_h4].
  intros [Hhere Hrest]%orb_false_elim. rewrite Hhere. f_equal. by apply IH.
Qed.

(** Lower-casing leaves the characters of the heading marker alone, and
    makes none of them out of another character. *)
Lemma lower_char_marker (c d : ascii) :
  In d h4_marker -> Ascii.eqb d (lower_char c) = true -> c = d.
Proof.
  intros Hd He. apply Ascii.eqb_eq in He. subst d.
  destruct c as [[] [] [] [] [] [] [] []]; vm_compute in Hd;
    try reflexivity; exfalso; intuition discriminate.
Qed.

Lemma startswith_lower_marker (p : str) :
  (forall d, In d p -> In d h4_marker) ->
  forall s, startswith (lower s) p = true -> startswith s p = true.
Proof.
  induction p as [|d p IH]; intros Hp s Hs; [by destruct s|].
  destruct s as [|c s]; [by cbn in Hs|]. cbn [lower map startswith] in *.
  apply andb_prop in Hs as [Hd Hs].
  rewrite <- (lower_char_marker c d) by (auto using in_eq).
  rewrite Ascii.eqb_refl. apply IH; [|done]. intros e He. apply Hp. by right.
Qed.

Lemma startswith_app_l (s p q : str) :
  startswith s (p ++ q) = true -> startswith s p = true.
Proof.
  revert s. induction p as [|d p IH]; intros s Hs; [by destruct s|].
  destruct s as [|c s]; [discriminate|]. cbn [app startswith] in *.
  apply andb_prop in Hs as [-> Hs]. by rewrite (IH s Hs).
Qed.

Lemma search_section_no_heading (heading_text s : str) :
  contains s h4_marker = false -> search_section heading_text s = None.
Proof.
  assert (Hno : forall s, startswith s h4_marker = false ->
                startswith_ci s (h4_marker ++ heading_text) = false).
  { intros t Ht. destruct (startswith_ci t (h4_marker ++ heading_text)) eqn:Hci; [|done].
    unfold startswith_ci, lower in Hci. rewrite map_app in Hci.
    apply startswith_app_l in Hci.
    change (map lower_char h4_marker) with h4_marker in Hci.
    apply startswith_lower_marker in Hci; [congruence | done]. }
  induction s as [|c s IH]; cbn [contains search_section].
  - intros [Hhere _]%orb_false_elim. by rewrite (Hno [] Hhere).
  - intros [Hhere Hrest]%orb_false_elim. rewrite (Hno _ Hhere). by apply IH.
Qed.

(** A page without a level-4 heading line is all main text: its main text
    is the page, trimmed, and the three description fields are empty. *)
Theorem page_without_headings (page_content : str) :
  contains page_content h4_marker = false ->
  parse_vision_markdown_page page_content
  = {| main_text := strip page_content;
       visual_descriptions := [];
       table_descriptions := [];
       equation_descriptions := [] |}.
Proof.
  intros Hno. unfold parse_vision_markdown_page, section_text.
  rewrite before_h4_no_heading by done.
  by rewrite !search_section_no_heading.
Qed.

Lemma page_without_headings_witness :
  parse_vision_markdown_page (lit ("  Heat flows ## from hot" ++ nl ++ "to cold. "))
  = {| main_text := strip (lit ("  Heat flows ## from hot" ++ nl ++ "to cold. "));
       visual_descriptions := [];
       table_descriptions := [];
       equation_descriptions := [] |}.
Proof.
  apply page_without_headings. vm_compute. reflexivity.
Defined.

Lemma page_numbers_in_order_from (pdf_name : str) (pages : list str) :
  forall n, 0 <= n ->
    StronglySorted Z.le
      (map (fun entry => entry.1.2) (omap page_entry (page_trace pdf_name n pages))) /\
    Forall (fun m => Z.max 1 n <= m <= Z.max 1 (n + len (List.filter nonblank pages)))
      (map (fun entry => entry.1.2) (omap page_entry (page_trace pdf_name n pages))).
Proof.
  induction pages as [|seg pages IH]; intros n Hn; cbn [page_trace List.filter].
  - split; constructor.
  - fold (nonblank seg). destruct (nonblank seg) eqn:Hnb; [|by apply IH].
    set (n' := next_page_num pdf_name n seg).
    assert (Hn' : n <= n' <= n + 1).
    { subst n'. unfold next_page_num. destruct (negb _); lia. }
    destruct (IH n' ltac:(lia)) as [Hsorted Hall].
    assert (Hall' :
      Forall (fun m => Z.max 1 n <= m
                       <= Z.max 1 (n + len (seg :: List.filter nonblank pages)))
        (map (fun entry => entry.1.2) (omap page_entry (page_trace pdf_name n' pages)))).
    { eapply Forall_impl; [exact Hall|]. intros m Hm. cbn beta in *.
      unfold len in *. cbn [length]. lia. }
    cbn [omap list_omap].
    destruct (page_entry (seg, page_num_for_meta n')) as [entry|] eqn:He;
      [|by split].
    apply page_entry_number in He. cbn [snd] in He.
    assert (Hmeta : page_num_for_meta n' = Z.max 1 n').
    { unfold page_num_for_meta. destruct (Z.gtb_spec n' 0); lia. }
    cbn [map]. rewrite He, Hmeta. split.
    + constructor; [done|]. eapply Forall_impl; [exact Hall|]. intros m Hm. cbn beta in *. lia.
    + constructor; [|done]. unfold len. cbn [length]. lia.
Qed.

(** The page numbers stored for a file never go down from one entry to the
    next, start at 1 at least, and stay within the number of non-blank
    segments of the file. *)
Theorem page_numbers_in_order (pdf_name : str) (pages : list str) :
  StronglySorted Z.le
    (map (fun entry => entry.1.2) (page_data_list (page_loop pdf_name pages))) /\
  Forall (fun m => 1 <= m <= Z.max 1 (len (List.filter nonblank pages)))
    (map (fun entry => entry.1.2) (page_data_list (page_loop pdf_name pages))).
Proof.
  unfold page_loop. rewrite page_loop_trace. cbn [page_data_list current_page_num app].
  destruct (page_numbers_in_order_from pdf_name pages 0 ltac:(lia)) as [Hs Ha].
  split; [done|]. eapply Forall_impl; [exact Ha|]. intros m Hm. cbn beta in *. lia.
Qed.

Lemma split_pages_aux_no_marker (s : str) :
  contains s page_marker_open = false ->
  forall cur, split_pages_aux s cur 0 = [rev cur ++ s].
Proof.
  induction s as [|c s IH]; intros Hno cur; cbn [split_pages_aux].
  - by rewrite app_nil_r.
  - cbn [contains] in Hno. apply orb_false_elim in Hno as [Hhere Hrest].
    unfold page_marker_length. rewrite Hhere.
    rewrite IH by done. cbn [rev]. by rewrite <- app_assoc.
Qed.

(** A file without the opening of a page marker is one segment, the whole
    file. *)
Lemma split_pages_no_marker (content : str) :
  contains content page_marker_open = false -> split_pages content = [content].
Proof. intros Hno. unfold split_pages. by rewrite split_pages_aux_no_marker. Qed.

End PagesMore.

(** ** Batches, records and the run of the indexer *)

Section Batches.
Import Py indexer_vision Spec.
Context {A : Type}.
Implicit Types l : list A.

Lemma batches_unfold l :
  batches l
  = map (fun k => take 100 (drop (k * 100) l)) (seq 0 ((length l + 99) / 100)%nat).
Proof.
  unfold batches, range_step, CHROMA_BATCH_SIZE. rewrite map_map.
  replace (length l + 100 - 1)%nat with (length l + 99)%nat by lia.
  apply map_ext. intros k.
  replace (Z.of_nat (k * 100) + Z.of_nat 100) with (Z.of_nat (k * 100 + 100)) by lia.
  rewrite slice_nat. f_equal. lia.
Qed.

Lemma batches_concat_from l :
  forall count start,
    concat (map (fun k => take 100 (drop (k * 100) l)) (seq start count))
    = take (100 * count) (drop (start * 100) l).
Proof.
  induction count as [|count IH]; intros start.
  - by rewrite Nat.mul_0_r, take_0.
  - cbn [seq map concat]. rewrite IH.
    replace (S start * 100)%nat with (start * 100 + 100)%nat by lia.
    rewrite <- (drop_drop l 100 (start * 100)).
    rewrite take_take_drop. f_equal. lia.
Qed.

Lemma batches_concat l : concat (batches l) = l.
Proof.
  rewrite batches_unfold, batches_concat_from, drop_0. apply take_ge.
  pose proof (Nat.div_mod_eq (length l + 99) 100) as Hdm.
  pose proof (Nat.mod_upper_bound (length l + 99) 100 ltac:(lia)) as Hmod.
  lia.
Qed.

(** Cutting into batches loses nothing and adds nothing: the batches, put
    end to end, are the list; no batch is empty and none has more than
    [CHROMA_BATCH_SIZE] items; an empty list has no batch. *)
Theorem batches_partition l :
  concat (batches l) = l /\
  Forall (fun batch => (1 <= length batch <= CHROMA_BATCH_SIZE)%nat) (batches l) /\
  length (batches l) = ((length l + 99) / 100)%nat.
Proof.
  split; [apply batches_concat|]. rewrite batches_unfold. split.
  - apply Forall_forall. intros batch Hin.
    apply list_elem_of_fmap in Hin as (k & -> & Hk).
    apply elem_of_seq in Hk.
    pose proof (Nat.div_mod_eq (length l + 99) 100) as Hdm.
    pose proof (Nat.mod_upper_bound (length l + 99) 100 ltac:(lia)) as Hmod.
    rewrite length_take, length_drop. unfold CHROMA_BATCH_SIZE. lia.
  - by rewrite length_map, length_seq.
Qed.

End Batches.

Section Records.
Import Py indexer_vision Spec.

Lemma lstrip_by_id (p : ascii -> bool) (s : str) :
  (forall c, head s = Some c -> p c = false) -> lstrip_by p s = s.
Proof.
  destruct s as [|c s]; [done|]. intros H. cbn. by rewrite (H c eq_refl).
Qed.

(** Trimming twice is trimming once. *)
Lemma strip_by_idemp (p : ascii -> bool) (s : str) :
  strip_by p (strip_by p s) = strip_by p s.
Proof.
  destruct (strip_by_decomp p s) as (_ & _ & _ & _ & _ & Hhd & Hlast).
  set (t := strip_by p s) in *. unfold strip_by at 1, rstrip_by.
  rewrite (lstrip_by_id p t Hhd).
  rewrite lstrip_by_id; [apply rev_involutive|].
  intros c Hc. apply Hlast. by rewrite rev_is_reverse, head_reverse in Hc.
Qed.

Lemma splitter_chunks_kept (text : str) (chunks : list str) :
  kept text = true ->
  recursive_character_text_splitter text = Some chunks ->
  Forall (fun chunk => (0 < len chunk <= CHUNK_SIZE) /\ strip chunk <> []) chunks.
Proof.
  intros Hkept Hret.
  assert (Hpos : forall c : str, strip c <> [] -> 0 < len c).
  { intros [|c s] Hc; [done|]. unfold len. cbn [length]. lia. }
  destruct (Z.le_gt_cases (len text) CHUNK_SIZE) as [Hshort|Hlong].
  - unfold recursive_character_text_splitter, recursive_character_text_splitter_with in Hret.
    destruct (Z.leb_spec (len text) CHUNK_SIZE); [|lia]. injection Hret as <-.
    assert (Hne : strip text <> []).
    { unfold kept in Hkept. intros Heq. by rewrite Heq in Hkept. }
    apply Forall_cons_2; [|constructor]. split; [|done]. split; [by apply Hpos | done].
  - rewrite splitter_long_returns in Hret by lia. injection Hret as <-.
    apply Forall_forall. intros chunk Hin.
    apply list_elem_of_In, filter_In in Hin as [Hin Hk].
    apply windows_from_In in Hin as (k & _ & ->).
    assert (Hne : strip (take 1000 (drop (0 + 800 * k) text)) <> []).
    { unfold kept in Hk. intros Heq. by rewrite Heq in Hk. }
    split; [|done]. split; [by apply Hpos|].
    unfold len, CHUNK_SIZE. rewrite length_take. lia.
Qed.

Lemma page_data_list_entries (pdf_name : str) (pages : list str) :
  Forall (fun entry => kept entry.1.1 = true /\ 1 <= entry.1.2)
         (page_data_list (page_loop pdf_name pages)).
Proof.
  unfold page_loop. rewrite page_loop_trace. cbn [page_data_list app].
  apply Forall_forall. intros entry Hin.
  apply list_elem_of_omap in Hin as (e & He & Hentry).
  pose proof (page_trace_min pdf_name pages 0) as Hmin.
  rewrite Forall_forall in Hmin. specialize (Hmin e He).
  rewrite (page_entry_number e entry Hentry). split; [|done].
  unfold page_entry in Hentry.
  destruct (truthy (main_text (parse_vision_markdown_page e.1))) eqn:Ht; [|discriminate].
  injection Hentry as <-. cbn [fst snd main_text parse_vision_markdown_page] in *.
  unfold kept, strip. by rewrite strip_by_idemp.
Qed.

Lemma chunk_pages_invariants (pdf_name : str) (pages : list (str * Z * descriptions)) :
  Forall (fun entry => kept entry.1.1 = true /\ 1 <= entry.1.2) pages ->
  forall chunks metas,
    chunk_pages pdf_name pages = Some (chunks, metas) ->
    length metas = length chunks /\
    Forall (fun m => source_file m = pdf_name /\ 1 <= source_page m) metas /\
    Forall (fun chunk => (0 < len chunk <= CHUNK_SIZE) /\ strip chunk <> []) chunks.
Proof.
  induction pages as [|[[text n] d] pages IH]; intros Hall chunks metas Hcp.
  - injection Hcp as <- <-. repeat split; constructor.
  - apply Forall_cons_1 in Hall as [[Hkept Hn] Hall]. cbn [fst snd] in *.
    cbn [chunk_pages] in Hcp.
    destruct (recursive_character_text_splitter text) as [cs|] eqn:Hs; [|discriminate].
    destruct (chunk_pages pdf_name pages) as [[cs' ms']|] eqn:Hrest; [|discriminate].
    cbn in Hcp. injection Hcp as <- <-.
    destruct (IH Hall cs' ms' eq_refl) as (Hlen & Hms & Hcs).
    split; [by rewrite !length_app, length_map, Hlen|]. split.
    + apply Forall_app. split; [|done].
      apply Forall_forall. intros m Hm. apply list_elem_of_fmap in Hm as (c & -> & _). done.
    + apply Forall_app. split; [|done]. by apply (splitter_chunks_kept text).
Qed.

Context {embedding : Type}.
Implicit Types (f : md_file embedding).

(** The chunks of a file and their metadata go in pairs; every metadata
    names the document of the file and a page from 1 on; every chunk has
    between 1 and [CHUNK_SIZE] characters, not all of them blank. *)
Theorem file_chunks_well_formed f (text : str) (chunks : list str) (metas : list metadata) :
  file_chunks f text = Some (chunks, metas) ->
  length metas = length chunks /\
  Forall (fun m => source_file m = infer_pdf_name (stem f) /\ 1 <= source_page m) metas /\
  Forall (fun chunk => (0 < len chunk <= CHUNK_SIZE) /\ strip chunk <> []) chunks.
Proof.
  intros H. unfold file_chunks in H.
  eapply chunk_pages_invariants; [apply page_data_list_entries | exact H].
Qed.

Lemma combine_results_all_some (ebs : list (list embedding)) :
  combine_results (Some <$> ebs) [] = (true, concat ebs).
Proof.
  rewrite combine_results_complete.
  - cbn [app]. f_equal. f_equal. induction ebs as [|b ebs IH]; [done|].
    cbn. by rewrite IH.
  - intros Hin. apply list_elem_of_In, list_elem_of_fmap in Hin as (b & Hb & _). discriminate.
Qed.

Lemma build_records_lookup f (embs : list embedding) (chunks : list str)
    (metas : list metadata) :
  length embs = length chunks -> length metas = length chunks ->
  exists records,
    build_records f embs chunks metas = Some records /\
    length records = length chunks /\
    forall i r, records !! i = Some r ->
      exists e c m,
        embs !! i = Some e /\ chunks !! i = Some c /\ metas !! i = Some m /\
        r = (uuid4 f i, e, c, m).
Proof.
  intros He Hm. unfold build_records.
  set (g := fun i : nat =>
              e ← embs !! i; c ← chunks !! i; m ← metas !! i; Some (uuid4 f i, e, c, m)).
  assert (Hsome : is_Some (mapM g (seq 0 (length chunks)))).
  { apply mapM_is_Some_2, Forall_forall. intros i Hi. apply elem_of_seq in Hi.
    unfold g, compose.
    destruct (lookup_lt_is_Some_2 embs i ltac:(lia)) as [e ->].
    destruct (lookup_lt_is_Some_2 chunks i ltac:(lia)) as [c ->].
    destruct (lookup_lt_is_Some_2 metas i ltac:(lia)) as [m ->]. by eexists. }
  destruct Hsome as [records Hrec]. exists records. split; [done|].
  apply mapM_Some_1 in Hrec.
  pose proof (Forall2_length _ _ _ Hrec) as Hlen. rewrite length_seq in Hlen.
  split; [done|]. intros i r Hr.
  destruct (Forall2_lookup_r _ _ _ _ _ Hrec Hr) as (j & Hj & Hg).
  apply lookup_seq in Hj as [-> _]. cbn [Nat.add] in Hg. unfold g in Hg.
  destruct (embs !! i) as [e|]; [|discriminate].
  destruct (chunks !! i) as [c|]; [|discriminate].
  destruct (metas !! i) as [m|]; [|discriminate].
  cbn in Hg. injection Hg as <-. by exists e, c, m.
Qed.

(** When every batch of a file is embedded and the embeddings are as many
    as the chunks, the file yields one record per chunk, in chunk order:
    the i-th record holds the i-th identifier, the i-th embedding returned,
    the i-th chunk and its metadata. *)
Theorem embedded_file_records f (text : str) (chunks : list str)
    (metas : list metadata) (ebs : list (list embedding)) :
  content f = Some text ->
  file_chunks f text = Some (chunks, metas) ->
  chunks <> [] ->
  embedding_results f chunks = Some <$> ebs ->
  length (concat ebs) = length chunks ->
  exists records,
    process_md_file_async f = Some records /\
    length records = length chunks /\
    forall i r, records !! i = Some r ->
      exists e c m,
        concat ebs !! i = Some e /\ chunks !! i = Some c /\ metas !! i = Some m /\
        r = (uuid4 f i, e, c, m).
Proof.
  intros Hcontent Hchunks Hne Hres Hlen.
  assert (Hm : length metas = length chunks).
  { unfold file_chunks in Hchunks.
    by destruct (chunk_pages_invariants _ _ (page_data_list_entries _ _) _ _ Hchunks). }
  destruct (build_records_lookup f (concat ebs) chunks metas Hlen Hm)
    as (records & Hbuild & Hrl & Hlook).
  exists records. split; [|done].
  unfold process_md_file_async. rewrite Hcontent, Hchunks.
  cbn -[embedding_results combine_results build_records].
  destruct chunks as [|c0 chunks']; [done|]. cbn [truthy].
  rewrite Hres, combine_results_all_some. rewrite Hlen, Nat.eqb_refl. cbn [andb].
  by rewrite Hbuild.
Qed.




End Records.

Lemma file_chunks_well_formed_witness :
  length [ {| source_file := Py.lit "lab"; source_page := 1;
              meta_visual := []; meta_table := []; meta_equation := [] |};
           {| source_file := Py.lit "lab"; source_page := 1;
              meta_visual := []; meta_table := []; meta_equation := [] |} ]
  = length [Py.lit "lab"; Py.lit "Hello"] /\
  Forall (fun chunk => (0 < Py.len chunk <= CHUNK_SIZE) /\ Py.strip chunk <> [])
         [Py.lit "lab"; Py.lit "Hello"].
Proof.
  destruct (file_chunks_well_formed sample_good_file
              (Py.lit ("lab" ++ nl ++ nl ++ "<!-- Page 1 -->" ++ nl ++ nl ++ "Hello"))
              [Py.lit "lab"; Py.lit "Hello"]
              [ {| source_file := Py.lit "lab"; source_page := 1;
                   meta_visual := []; meta_table := []; meta_equation := [] |};
                {| source_file := Py.lit "lab"; source_page := 1;
                   meta_visual := []; meta_table := []; meta_equation := [] |} ])
    as (Hlen & _ & Hchunks); [vm_compute; reflexivity|].
  exact (conj Hlen Hchunks).
Defined.

Lemma embedded_file_records_witness :
  exists records,
    process_md_file_async sample_good_file = Some records /\
    length records = length [Py.lit "lab"; Py.lit "Hello"] /\
    forall i r, records !! i = Some r ->
      exists e c m,
        concat [[7%nat; 7%nat]] !! i = Some e /\
        [Py.lit "lab"; Py.lit "Hello"] !! i = Some c /\
        [ {| source_file := Py.lit "lab"; source_page := 1;
             meta_visual := []; meta_table := []; meta_equation := [] |};
          {| source_file := Py.lit "lab"; source_page := 1;
             meta_visual := []; meta_table := []; meta_equation := [] |} ] !! i = Some m /\
        r = (uuid4 sample_good_file i, e, c, m).
Proof.
  apply (embedded_file_records sample_good_file
           (Py.lit ("lab" ++ nl ++ nl ++ "<!-- Page 1 -->" ++ nl ++ nl ++ "Hello"))).
  - reflexivity.
  - vm_compute. reflexivity.
  - discriminate.
  - vm_compute. reflexivity.
  - reflexivity.
Defined.


(** ** A file of one page *)

Section SinglePage.
Import Py.
Context {embedding : Type}.

(** A file without page marker and without heading line, whose trimmed text
    is not empty and fits in one window, yields exactly one record when its
    one embedding call answers with one vector: the trimmed text of the
    file, on page 1, with empty description fields. *)
Theorem single_page_file (f : md_file embedding) (text : str) (e : embedding) :
  content f = Some text ->
  contains text page_marker_open = false ->
  contains text h4_marker = false ->
  strip text <> [] ->
  len (strip text) <= CHUNK_SIZE ->
  embed_content_async f 0 [strip text] = Some [e] ->
  process_md_file_async f
  = Some [(uuid4 f 0, e, strip text,
           {| source_file := infer_pdf_name (stem f); source_page := 1;
              meta_visual := []; meta_table := []; meta_equation := [] |})].
Proof.
  intros Hcontent Hmarker Hh4 Hne Hshort Hembed.
  assert (Htruthy : truthy (strip text) = true) by (by destruct (strip text)).
  assert (Hpages :
    page_data_list (page_loop (infer_pdf_name (stem f)) (split_pages text))
    = [(strip text, 1, {| visual := []; table := []; equation := [] |})]).
  { rewrite split_pages_no_marker by done. unfold page_loop. cbn [fold_left].
    unfold page_step. cbn [current_page_num page_data_list].
    rewrite Htruthy, page_without_headings by done.
    cbn [main_text visual_descriptions table_descriptions equation_descriptions].
    rewrite Htruthy. cbn [page_data_list app]. do 3 f_equal.
    unfold next_page_num, page_num_for_meta.
    by destruct (negb (is_initial_chunk (infer_pdf_name (stem f)) text)). }
  assert (Hsplit : recursive_character_text_splitter (strip text) = Some [strip text]).
  { unfold recursive_character_text_splitter, recursive_character_text_splitter_with.
    by destruct (Z.leb_spec (len (strip text)) CHUNK_SIZE); [|lia]. }
  unfold process_md_file_async, file_chunks. rewrite Hcontent, Hpages.
  cbn [chunk_pages]. rewrite Hsplit.
  cbn -[embedding_results combine_results build_records].
  unfold embedding_results.
  assert (Hb : batches [strip text] = [[strip text]]) by reflexivity.
  rewrite Hb. cbn [imap]. rewrite Hembed. cbn. done.
Qed.

End SinglePage.

Lemma single_page_file_witness :
  process_md_file_async
    {| stem := Py.lit "notes_vision_processed";
       content := Some (Py.lit (" Heat flows from hot to cold." ++ nl));
       embed_content_async := fun _ batch => Some (map (fun _ => 7%nat) batch);
       uuid4 := fun _ => Py.lit "id" |}
  = Some [(Py.lit "id", 7%nat, Py.lit "Heat flows from hot to cold.",
           {| source_file := Py.lit "notes"; source_page := 1;
              meta_visual := []; meta_table := []; meta_equation := [] |})].
Proof.
  apply (single_page_file
           {| stem := Py.lit "notes_vision_processed";
              content := Some (Py.lit (" Heat flows from hot to cold." ++ nl));
              embed_content_async := fun _ batch => Some (map (fun _ => 7%nat) batch);
              uuid4 := fun _ => Py.lit "id" |}
           (Py.lit (" Heat flows from hot to cold." ++ nl)) 7%nat).
  - reflexivity.
  - vm_compute. reflexivity.
  - vm_compute. reflexivity.
  - vm_compute. discriminate.
  - vm_compute. discriminate.
  - reflexivity.
Defined.

(** ** The solver: file name, failures, context *)

Section SolverMore.
Import Py rag_exam_solver.

Lemma strip_by_parts (p : ascii -> bool) (s : str) :
  (length (strip_by p s) <= length s)%nat /\
  forall c, In c (strip_by p s) -> In c s.
Proof.
  destruct (strip_by_decomp p s) as (lead & trail & Hs & _).
  split.
  - rewrite Hs at 2. rewrite !length_app. lia.
  - intros c Hc. rewrite Hs. apply in_or_app. right. apply in_or_app. by left.
Qed.

(** The file name derived from a query is never empty, has at most 50
    characters, holds only alphanumeric characters and underscores, and
    neither starts nor ends with an underscore. *)
Theorem safe_filename_is_safe (query : str) :
  safe_filename query <> [] /\
  (length (safe_filename query) <= 50)%nat /\
  Forall (fun c => isalnum c = true \/ c = "_"%char) (safe_filename query) /\
  head (safe_filename query) <> Some "_"%char /\
  last (safe_filename query) <> Some "_"%char.
Proof.
  unfold safe_filename, strip_chars.
  set (p := fun c => existsb (Ascii.eqb c) (lit "_")).
  set (replaced := map (fun c => if isalnum c then c else "_"%char) (slice query 0 50)).
  assert (Hlen : (length replaced <= 50)%nat).
  { subst replaced. rewrite length_map. change 0 with (Z.of_nat 0).
    change 50 with (Z.of_nat 50). rewrite slice_nat, length_take. lia. }
  assert (Hchars : forall c, In c replaced -> isalnum c = true \/ c = "_"%char).
  { intros c Hc. subst replaced. apply in_map_iff in Hc as (d & <- & _).
    destruct (isalnum d) eqn:Hd; auto. }
  destruct (strip_by_parts p replaced) as [Hl Hin].
  destruct (strip_by_decomp p replaced) as (_ & _ & _ & _ & _ & Hhd & Hlast).
  destruct (strip_by p replaced) as [|c core] eqn:Hcore; cbn [truthy negb].
  - split; [discriminate|]. split; [cbn; lia|]. split; [|split; discriminate].
    apply Forall_forall. intros c Hc. apply list_elem_of_In in Hc.
    vm_compute in Hc. intuition (subst; auto).
  - split; [discriminate|]. split; [lia|]. split; [|split].
    + apply Forall_forall. intros d Hd. apply Hchars, Hin. by apply list_elem_of_In.
    + intros H. apply Hhd in H. discriminate.
    + intros H. apply Hlast in H. discriminate.
Qed.

Context {embedding distance : Type} (format_4f : distance -> str).
Implicit Types (sv : services embedding distance).


Lemma lstrip_by_app_all (p : ascii -> bool) (a b : str) :
  forallb p a = true -> lstrip_by p (a ++ b) = lstrip_by p b.
Proof.
  induction a as [|c a IH]; [done|]. cbn. intros [-> Ha]%andb_prop. by apply IH.
Qed.

(** Trimming a text that starts and ends with a visible character and is
    followed by blanks gives the text. *)
Lemma strip_trailing_blanks (y ws : str) :
  (forall c, head y = Some c -> isspace c = false) ->
  (forall c, last y = Some c -> isspace c = false) ->
  forallb isspace ws = true ->
  strip (y ++ ws) = y.
Proof.
  intros Hhd Hlast Hws. unfold strip, strip_by, rstrip_by.
  destruct y as [|c y].
  - cbn [app]. apply lstrip_by_nil in Hws. rewrite Hws. done.
  - rewrite (lstrip_by_id isspace ((c :: y) ++ ws)) by (intros d [= <-]; by apply Hhd).
    rewrite rev_app_distr, lstrip_by_app_all
      by (rewrite forallb_forall in *; intros d Hd; apply Hws; by apply in_rev).
    rewrite lstrip_by_id; [apply rev_involutive|].
    intros d Hd. apply Hlast. by rewrite rev_is_reverse, head_reverse in Hd.
Qed.

Lemma format_chunk_rule (i : nat) (h : chromadb.hit distance) :
  exists block, format_chunk format_4f i h = block ++ lit ("---" ++ nl ++ nl).
Proof.
  unfold format_chunk. rewrite !app_assoc. eexists. reflexivity.
Qed.

(** For a result that is not empty the context is the heading line, then
    one block per hit in rank order, each closed by a rule; only the blank
    lines after the last rule are cut. *)
Theorem context_of_hits (hits : list (chromadb.hit distance)) :
  hits <> [] ->
  exists body,
    concat (imap (format_chunk format_4f) hits) = body ++ lit ("---" ++ nl ++ nl) /\
    format_retrieved_context format_4f (Some hits)
    = lit ("Retrieved Context from Study Material:" ++ nl ++ nl) ++ body ++ lit "---".
Proof.
  intros Hne.
  assert (Hlast : exists init h, hits = init ++ [h]).
  { destruct (last hits) as [h|] eqn:Hl.
    - apply last_Some in Hl as [init ->]. eauto.
    - by apply last_None in Hl. }
  destruct Hlast as (init & h & ->).
  rewrite imap_app, concat_app. cbn [imap concat]. rewrite app_nil_r.
  destruct (format_chunk_rule (length init + 0) h) as [block Hblock].
  rewrite Hblock.
  exists (concat (imap (format_chunk format_4f) init) ++ block).
  split; [by rewrite <- app_assoc|].
  unfold format_retrieved_context.
  destruct (init ++ [h]) eqn:Hh; [by destruct init|]. cbn [truthy negb]. rewrite <- Hh.
  rewrite imap_app, concat_app. cbn [imap concat]. rewrite app_nil_r, Hblock.
  set (body := concat (imap (format_chunk format_4f) init) ++ block).
  replace (lit "Retrieved Context from Study Material:

" ++ concat (imap (format_chunk format_4f) init) ++ block ++ lit ("---" ++ nl ++ nl))
    with ((lit ("Retrieved Context from Study Material:" ++ nl ++ nl) ++ body ++ lit "---")
          ++ lit (nl ++ nl)).
  - apply strip_trailing_blanks; [by intros c [= <-] | | done].
    intros c Hc. rewrite app_assoc, last_app in Hc. cbn in Hc. by injection Hc as <-.
  - subst body. rewrite <- !app_assoc. done.
Qed.

End SolverMore.


Lemma context_of_hits_witness :
  exists body,
    concat (imap (rag_exam_solver.format_chunk (fun _ : unit => Py.lit "0.1234"))
              [Derived.sample_hit; Derived.sample_hit])
    = body ++ Py.lit ("---" ++ nl ++ nl) /\
    rag_exam_solver.format_retrieved_context (fun _ : unit => Py.lit "0.1234")
      (Some [Derived.sample_hit; Derived.sample_hit])
    = Py.lit ("Retrieved Context from Study Material:" ++ nl ++ nl) ++ body ++ Py.lit "---".
Proof.
  apply (context_of_hits (fun _ : unit => Py.lit "0.1234")
           [Derived.sample_hit; Derived.sample_hit]).
  discriminate.
Defined.

(** ** The guide: context and text *)

Section GuideMore.
Import Py create_exam_guide.
Context {embedding distance : Type} (format_4f : distance -> str).
Implicit Types (sv : services embedding distance) (topics : list str).

Lemma guide_format_chunk_rule (i : nat) (h : chromadb.hit distance) :
  exists block, format_chunk distance format_4f i h = block ++ lit ("---" ++ nl ++ nl).
Proof.
  unfold format_chunk. rewrite !app_assoc. eexists. reflexivity.
Qed.

(** In the guide generator the context of a result that is not empty is
    the heading line of the local material, then one block per hit in rank
    order, each closed by a rule; only the blank lines after the last rule
    are cut. *)
Theorem guide_context_of_hits (hits : list (chromadb.hit distance)) :
  hits <> [] ->
  exists body,
    concat (imap (format_chunk distance format_4f) hits)
    = body ++ lit ("---" ++ nl ++ nl) /\
    format_retrieved_context format_4f (Some hits)
    = lit ("Retrieved Context from Local Study Material:" ++ nl ++ nl)
      ++ body ++ lit "---".
Proof.
  intros Hne.
  assert (Hlast : exists init h, hits = init ++ [h]).
  { destruct (last hits) as [h|] eqn:Hl.
    - apply last_Some in Hl as [init ->]. eauto.
    - by apply last_None in Hl. }
  destruct Hlast as (init & h & ->).
  rewrite imap_app, concat_app. cbn [imap concat]. rewrite app_nil_r.
  destruct (guide_format_chunk_rule (length init + 0) h) as [block Hblock].
  rewrite Hblock.
  exists (concat (imap (format_chunk distance format_4f) init) ++ block).
  split; [by rewrite <- app_assoc|].
  unfold format_retrieved_context.
  destruct (init ++ [h]) eqn:Hh; [by destruct init|]. cbn [truthy negb]. rewrite <- Hh.
  rewrite imap_app, concat_app. cbn [imap concat]. rewrite app_nil_r, Hblock.
  set (body := concat (imap (format_chunk distance format_4f) init) ++ block).
  replace (lit "Retrieved Context from Local Study Material:

" ++ concat (imap (format_chunk distance format_4f) init) ++ block
         ++ lit ("---" ++ nl ++ nl))
    with ((lit ("Retrieved Context from Local Study Material:" ++ nl ++ nl)
           ++ body ++ lit "---") ++ lit (nl ++ nl)).
  - apply strip_trailing_blanks; [by intros c [= <-] | | done].
    intros c Hc. rewrite app_assoc, last_app in Hc. cbn in Hc. by injection Hc as <-.
  - subst body. rewrite <- !app_assoc. done.
Qed.

Lemma join_cons_concat (sep p : str) (rest : list str) :
  join sep (p :: rest) = p ++ concat (map (app sep) rest).
Proof.
  revert p. induction rest as [|q rest IH]; intros p.
  - cbn. by rewrite app_nil_r.
  - change (join sep (p :: q :: rest)) with (p ++ sep ++ join sep (q :: rest)).
    rewrite IH. cbn [map concat]. by rewrite <- !app_assoc.
Qed.

(** The guide saved for topics T1..Tn: the preamble, then for each topic in
    the order of the input a line feed, the result of its task and the
    rule; the order in which the tasks complete does not show in it. *)
Theorem guide_text sv (n_results : Z) topics (schedule : list nat) :
  topics <> [] ->
  schedule ≡ₚ seq 0 (length topics) ->
  main_async format_4f sv n_results topics schedule
  = Returned (Some (guide_preamble ++
      concat (imap (fun i topic =>
                lit nl
                ++ task_result sv i (prepare_topic format_4f sv n_results i topic)
                ++ lit (nl ++ nl ++ "---" ++ nl)) topics))).
Proof.
  intros Hne Hperm. unfold main_async, explanations.
  destruct topics as [|t ts] eqn:Ht; [done|]. cbn [truthy negb]. rewrite <- Ht in *.
  rewrite gather_in_task_order
    by (unfold topic_data_for_generation; by rewrite !length_imap).
  cbn [fmap option_fmap option_map]. do 2 f_equal.
  unfold compile_guide. rewrite join_cons_concat. f_equal. f_equal.
  unfold topic_data_for_generation.
  rewrite map_map. apply list_eq. intros i.
  change (map ?f ?l) with (f <$> l).
  rewrite list_lookup_fmap, !list_lookup_imap.
  by destruct (topics !! i).
Qed.

End GuideMore.

Lemma guide_context_of_hits_witness :
  exists body,
    concat (imap (create_exam_guide.format_chunk unit (fun _ : unit => Py.lit "0.1234"))
              [Derived.sample_hit])
    = body ++ Py.lit ("---" ++ nl ++ nl) /\
    create_exam_guide.format_retrieved_context (fun _ : unit => Py.lit "0.1234")
      (Some [Derived.sample_hit])
    = Py.lit ("Retrieved Context from Local Study Material:" ++ nl ++ nl)
      ++ body ++ Py.lit "---".
Proof.
  apply (guide_context_of_hits (fun _ : unit => Py.lit "0.1234") [Derived.sample_hit]).
  discriminate.
Defined.

Lemma guide_text_witness :
  create_exam_guide.main_async (fun _ : unit => Py.lit "0.1234") sample_guide_services 10
    sample_topics sample_schedule
  = Returned (Some (create_exam_guide.guide_preamble
      ++ Py.lit (nl ++ "## A" ++ nl ++ nl ++ "---" ++ nl)
      ++ Py.lit nl ++ create_exam_guide.error_task (Py.lit "B")
      ++ Py.lit (nl ++ nl ++ "---" ++ nl)
      ++ Py.lit (nl ++ "## C" ++ nl ++ nl ++ "---" ++ nl))).
Proof.
  rewrite (guide_text (fun _ : unit => Py.lit "0.1234") sample_guide_services 10
             sample_topics sample_schedule);
    [|discriminate|exact sample_schedule_complete].
  vm_compute. reflexivity.
Defined.

(** ** The structurer: the text handed to the decoder *)

Section StructurerMore.
Import Py structure_exam_topics.

Lemma startswith_app (sub b : str) : startswith (sub ++ b) sub = true.
Proof.
  induction sub as [|c sub IH]; cbn; [by destruct b|].
  by rewrite Ascii.eqb_refl.
Qed.

Lemma find_cons (d : ascii) (s sub : str) :
  find (d :: s) sub
  = if startswith (d :: s) sub then 0
    else let r := find s sub in if r <? 0 then -1 else r + 1.
Proof. reflexivity. Qed.

Lemma startswith_other (c d : ascii) (s sub : str) :
  c <> d -> startswith (d :: s) (c :: sub) = false.
Proof.
  intros Hne. cbn. destruct (Ascii.eqb_spec c d); done.
Qed.

(** A text without the first character of [sub] does not hold [sub]. *)
Lemma find_absent (c : ascii) (sub s : str) :
  ~ In c s -> find s (c :: sub) = -1.
Proof.
  induction s as [|d s IH]; intros Hc; [done|].
  rewrite find_cons, startswith_other by (intros ->; apply Hc; by left).
  rewrite IH by (intros H; apply Hc; by right). done.
Qed.

(** The first occurrence of [sub] after a text without its first
    character. *)
Lemma find_after (c : ascii) (sub a b : str) :
  ~ In c a -> find (a ++ (c :: sub) ++ b) (c :: sub) = len a.
Proof.
  induction a as [|d a IH]; intros Hc.
  - cbn [app]. change (c :: sub ++ b) with ((c :: sub) ++ b).
    destruct ((c :: sub) ++ b) as [|e r] eqn:He; [done|].
    rewrite find_cons, <- He, startswith_app. done.
  - change ((d :: a) ++ (c :: sub) ++ b) with (d :: (a ++ (c :: sub) ++ b)).
    rewrite find_cons, startswith_other by (intros ->; apply Hc; by left).
    rewrite IH by (intros H; apply Hc; by right).
    unfold len. cbn [length]. cbv zeta.
    destruct (Z.ltb_spec (Z.of_nat (length a)) 0); lia.
Qed.

Lemma rfind_cons (d : ascii) (s sub : str) :
  rfind (d :: s) sub
  = let r := rfind s sub in
    if 0 <=? r then r + 1 else if startswith (d :: s) sub then 0 else -1.
Proof. reflexivity. Qed.

Lemma rfind_absent (c : ascii) (s : str) : ~ In c s -> rfind s [c] = -1.
Proof.
  induction s as [|d s IH]; intros Hc; [done|].
  rewrite rfind_cons, IH by (intros H; apply Hc; by right). cbv zeta.
  rewrite startswith_other by (intros ->; apply Hc; by left). done.
Qed.

(** The last occurrence of a character that the rest of the text does not
    hold. *)
Lemma rfind_last (c : ascii) (a b : str) :
  ~ In c b -> rfind (a ++ c :: b) [c] = len a.
Proof.
  intros Hc. induction a as [|d a IH].
  - cbn [app]. rewrite rfind_cons, rfind_absent by done. cbv zeta.
    cbn. rewrite Ascii.eqb_refl. by destruct b.
  - change ((d :: a) ++ c :: b) with (d :: (a ++ c :: b)).
    rewrite rfind_cons, IH. unfold len. cbn [length]. cbv zeta.
    destruct (Z.leb_spec 0 (Z.of_nat (length a))); lia.
Qed.

Lemma lstrip_by_app_stop (p : ascii -> bool) (a b : str) (c : ascii) :
  p c = false -> lstrip_by p (a ++ c :: b) = lstrip_by p a ++ c :: b.
Proof.
  intros Hc. induction a as [|d a IH]; cbn; [by rewrite Hc|].
  by destruct (p d).
Qed.

Lemma rstrip_by_app_stop (p : ascii -> bool) (a b : str) (c : ascii) :
  p c = false -> rstrip_by p (a ++ c :: b) = a ++ c :: rstrip_by p b.
Proof.
  intros Hc. unfold rstrip_by.
  rewrite rev_app_distr. cbn [rev]. rewrite <- app_assoc. cbn [app].
  rewrite lstrip_by_app_stop by done.
  rewrite rev_app_distr. cbn [rev]. by rewrite rev_involutive, <- app_assoc.
Qed.

Lemma lstrip_by_In (p : ascii -> bool) (s : str) (c : ascii) :
  In c (lstrip_by p s) -> In c s.
Proof.
  destruct (lstrip_by_decomp p s) as (lead & Hs & _).
  intros Hc. rewrite Hs. apply in_or_app. by right.
Qed.

Lemma rstrip_by_In (p : ascii -> bool) (s : str) (c : ascii) :
  In c (rstrip_by p s) -> In c s.
Proof.
  unfold rstrip_by. intros Hc. apply in_rev in Hc. apply lstrip_by_In in Hc.
  by apply in_rev.
Qed.

Lemma slice_whole_tail {A} (a b : list A) :
  slice (a ++ b) (len a) (len (a ++ b)) = b.
Proof.
  unfold len. rewrite slice_nat, drop_app_length, take_ge; [done|].
  rewrite length_app. lia.
Qed.

Lemma slice_head {A} (a b : list A) : slice (a ++ b) 0 (len a) = a.
Proof.
  unfold len. change 0 with (Z.of_nat 0). rewrite slice_nat, drop_0, Nat.sub_0_r.
  by rewrite take_app_length.
Qed.

(** A reply holding a fenced block is decoded from the block alone: what
    stands before the opening fence and after the closing fence, brackets
    included, is dropped, and the block is trimmed. *)
Theorem json_string_fenced (pre body post : str) :
  ~ In "`"%char pre -> ~ In "`"%char body ->
  json_string (pre ++ fence_open ++ body ++ fence_close ++ post) = strip body.
Proof.
  intros Hpre Hbody. unfold json_string, fenced_json.
  assert (Hp : find (pre ++ fence_open ++ body ++ fence_close ++ post) fence_open
               = len pre)
    by (by apply (find_after "`"%char (lit "``json"))).
  rewrite Hp.
  destruct (Z.ltb_spec (len pre) 0) as [Hneg|_]; [unfold len in Hneg; lia|].
  assert (Hrest :
    slice (pre ++ fence_open ++ body ++ fence_close ++ post)
          (len pre + len fence_open)
          (len (pre ++ fence_open ++ body ++ fence_close ++ post))
    = body ++ fence_close ++ post).
  { rewrite (app_assoc pre fence_open).
    replace (len pre + len fence_open) with (len (pre ++ fence_open))
      by (unfold len; rewrite length_app; lia).
    apply slice_whole_tail. }
  rewrite Hrest.
  assert (Hq : find (body ++ fence_close ++ post) fence_close = len body)
    by (by apply (find_after "`"%char (lit "``"))).
  rewrite Hq.
  destruct (Z.ltb_spec (len body) 0) as [Hneg|_]; [unfold len in Hneg; lia|].
  by rewrite slice_head.
Qed.

(** A reply without a fence that holds an opening bracket and, after it, a
    closing bracket is decoded from its first opening bracket to its last
    closing bracket: the prose around the array is cut, brackets inside are
    kept. *)
Theorem json_string_bare_array (pre mid post : str) :
  ~ In "`"%char (pre ++ mid ++ post) ->
  ~ In "["%char pre ->
  ~ In "]"%char post ->
  json_string (pre ++ lit "[" ++ mid ++ lit "]" ++ post) = lit "[" ++ mid ++ lit "]".
Proof.
  intros Htick Hopen Hclose. unfold json_string, fenced_json.
  change fence_open with ("`"%char :: lit "``json").
  rewrite find_absent.
  2:{ intros H. apply Htick. rewrite !in_app_iff in *. cbn in H.
      destruct H as [?|[[H|[]]|[?|[[H|[]]|?]]]]; try discriminate H; auto. }
  cbn [Z.ltb Z.compare].
  change (lit "[" ++ mid ++ lit "]" ++ post) with ("["%char :: mid ++ "]"%char :: post).
  assert (Hstrip :
    strip (pre ++ "["%char :: mid ++ "]"%char :: post)
    = lstrip_by isspace pre ++ "["%char :: mid ++ "]"%char :: rstrip_by isspace post).
  { unfold strip, strip_by. rewrite lstrip_by_app_stop by done.
    change (lstrip_by isspace pre ++ "["%char :: mid ++ "]"%char :: post)
      with (lstrip_by isspace pre ++ ("["%char :: mid) ++ "]"%char :: post).
    rewrite (app_assoc (lstrip_by isspace pre)).
    rewrite rstrip_by_app_stop by done.
    by rewrite <- app_assoc. }
  rewrite Hstrip.
  set (x := lstrip_by isspace pre). set (y := rstrip_by isspace post).
  assert (Hfirst : find (x ++ "["%char :: mid ++ "]"%char :: y) (lit "[") = len x).
  { apply (find_after "["%char [] x (mid ++ "]"%char :: y)).
    intros H. by apply Hopen, (lstrip_by_In isspace). }
  assert (Hlast : rfind (x ++ "["%char :: mid ++ "]"%char :: y) (lit "]")
                  = len (x ++ "["%char :: mid)).
  { rewrite app_comm_cons, app_assoc. apply rfind_last.
    intros H. by apply Hclose, (rstrip_by_In isspace). }
  rewrite Hfirst, Hlast.
  destruct (Z.eqb_spec (len x) (-1)) as [Hneg|_]; [unfold len in Hneg; lia|].
  destruct (Z.eqb_spec (len (x ++ "["%char :: mid)) (-1)) as [Hneg|_];
    [unfold len in Hneg; lia|].
  cbn [negb andb]. unfold len.
  replace (Z.of_nat (length (x ++ "["%char :: mid)) + 1)
    with (Z.of_nat (length x + (length mid + 2))) by (rewrite length_app; cbn; lia).
  rewrite slice_nat, drop_app_length.
  replace (length x + (length mid + 2) - length x)%nat
    with (length (lit "[" ++ mid ++ lit "]")) by (cbn; rewrite length_app; cbn; lia).
  replace ("["%char :: mid ++ "]"%char :: y) with ((lit "[" ++ mid ++ lit "]") ++ y)
    by (cbn; by rewrite <- app_assoc).
  apply take_app_length.
Qed.

End StructurerMore.

Lemma json_string_fenced_witness :
  structure_exam_topics.json_string
    (Py.lit ("Here it is [1]:" ++ nl) ++ structure_exam_topics.fence_open
     ++ Py.lit (nl ++ "[]" ++ nl) ++ structure_exam_topics.fence_close
     ++ Py.lit (nl ++ "Done [2]."))
  = Py.lit "[]".
Proof.
  rewrite (json_string_fenced (Py.lit ("Here it is [1]:" ++ nl)) (Py.lit (nl ++ "[]" ++ nl))
             (Py.lit (nl ++ "Done [2]."))).
  - vm_compute. reflexivity.
  - vm_compute. intuition discriminate.
  - vm_compute. intuition discriminate.
Defined.

Lemma json_string_bare_array_witness :
  structure_exam_topics.json_string
    (Py.lit " Sure: " ++ Py.lit "[" ++ Py.lit "[1], [2]" ++ Py.lit "]" ++ Py.lit (" ok" ++ nl))
  = Py.lit "[" ++ Py.lit "[1], [2]" ++ Py.lit "]".
Proof.
  apply (json_string_bare_array (Py.lit " Sure: ") (Py.lit "[1], [2]") (Py.lit (" ok" ++ nl))).
  - vm_compute. intuition discriminate.
  - vm_compute. intuition discriminate.
  - vm_compute. intuition discriminate.
Defined.

(** ** The extractor: shape of the topics and of the text written *)

Section ExtractorMore.
Import Py extract_exam_topics Derived.

Lemma splitlines_aux_no_break (s : str) :
  forall (cur : str) (after_cr : bool),
    (forall c, In c cur -> islinebreak c = false) ->
    List.Forall (fun line => forall c, In c line -> islinebreak c = false)
                (splitlines_aux s cur after_cr).
Proof.
  induction s as [|d s IH]; intros cur after_cr Hcur; cbn [splitlines_aux].
  - destruct (truthy cur); constructor; [|constructor].
    intros c Hc. apply Hcur. by apply in_rev.
  - destruct (after_cr && Ascii.eqb d "010"); [by apply IH|].
    destruct (islinebreak d) eqn:Hd.
    + constructor; [|by apply IH].
      intros c Hc. apply Hcur. by apply in_rev.
    + apply IH. intros c [<-|Hc]; [done | by apply Hcur].
Qed.

Lemma extracted_clean (response_text : option str) (t : str) :
  In t (extract_topics_from_summary response_text) -> clean_topic t.
Proof.
  destruct response_text as [text|]; [|done].
  unfold extract_topics_from_summary. intros Ht.
  apply in_map_iff in Ht as (line & <- & Hline).
  apply filter_In in Hline as [Hline Hkept].
  split; [by destruct (strip line)|]. split; [apply strip_by_idemp|].
  intros c Hc. apply strip_by_parts in Hc.
  pose proof (splitlines_aux_no_break text [] false) as Hall.
  rewrite List.Forall_forall in Hall. by apply (Hall ltac:(done) line).
Qed.

(** Every topic extracted from a reply is not empty, has no blank at
    either end and holds no line boundary. *)
Theorem extracted_topics_clean (response_text : option str) :
  List.Forall clean_topic (extract_topics_from_summary response_text).
Proof.
  apply List.Forall_forall. intros t Ht. by apply (extracted_clean response_text).
Qed.

Lemma splitlines_aux_line (t s : str) :
  (forall c, In c t -> islinebreak c = false) ->
  forall cur,
    splitlines_aux (t ++ "010"%char :: s) cur false
    = (rev cur ++ t) :: splitlines_aux s [] false.
Proof.
  induction t as [|c t IH]; intros Ht cur.
  - cbn. by rewrite app_nil_r.
  - cbn [app splitlines_aux andb]. rewrite (Ht c) by (by left).
    rewrite IH by (intros d Hd; apply Ht; by right).
    cbn [rev]. by rewrite <- app_assoc.
Qed.

Lemma splitlines_write_lines (topic_list : list str) :
  List.Forall clean_topic topic_list ->
  splitlines (write_lines topic_list) = topic_list.
Proof.
  induction 1 as [|t ts (_ & _ & Ht) _ IH]; [done|].
  unfold write_lines, splitlines. cbn [map concat]. rewrite <- app_assoc. cbn [app].
  rewrite splitlines_aux_line by done. cbn [rev app]. f_equal. exact IH.
Qed.

Lemma extract_write_lines (topic_list : list str) :
  List.Forall clean_topic topic_list ->
  extract_topics_from_summary (Some (write_lines topic_list)) = topic_list.
Proof.
  intros Hclean. unfold extract_topics_from_summary.
  rewrite splitlines_write_lines by done.
  induction Hclean as [|t ts (Hne & Hstrip & _) _ IH]; [done|].
  cbn [List.filter]. rewrite Hstrip.
  destruct t as [|c t]; [done|]. cbn [truthy map]. by rewrite Hstrip, IH.
Qed.

(** The text written under an extension other than .json holds one line
    per topic: splitting it into lines and trimming them, as the extraction
    does with a reply, gives the sorted list of the accumulated topics
    back. *)
Theorem written_lines_read_back (fs : file_system) (md_files : list summary_file)
    (suffix text : str) :
  output_file (main fs md_files suffix) = Some (Lines text) ->
  extract_topics_from_summary (Some text) = sorted (elements (accumulate md_files)).
Proof.
  assert (Hclean : List.Forall clean_topic (sorted (elements (accumulate md_files)))).
  { apply List.Forall_forall. intros t Ht. apply list_elem_of_In in Ht.
    unfold sorted in Ht. rewrite merge_sort_Permutation, elem_of_elements in Ht.
    unfold accumulate in Ht. apply accumulate_from_elem in Ht as [Ht|Ht].
    - by apply elem_of_empty in Ht.
    - destruct Ht as (f & content & _ & _ & _ & Ht).
      apply (extracted_clean (response_text f)). by apply list_elem_of_In. }
  unfold main. destruct md_files as [|f files]; [discriminate|]. cbn [truthy negb].
  destruct (elements (accumulate (f :: files))) as [|t ts] eqn:Hel; [discriminate|].
  cbn [truthy negb]. rewrite <- Hel in *.
  destruct (parent_mkdir_raises fs); [discriminate|]. unfold save.
  destruct (write_raises fs);
    [by destruct (str_eqb (lower suffix) (lit ".json")),
                 (str_eqb (lower suffix) (lit ".txt"))|].
  destruct (str_eqb (lower suffix) (lit ".json")); [discriminate|].
  destruct (str_eqb (lower suffix) (lit ".txt")); cbn [output_file];
    intros [= <-]; apply extract_write_lines; exact Hclean.
Qed.

End ExtractorMore.

Lemma written_lines_read_back_witness :
  extract_topics_from_summary (Some (Py.lit ("Carnot cycle" ++ nl ++ "Entropy" ++ nl)))
  = sorted (elements (accumulate sample_summaries)).
Proof.
  apply (written_lines_read_back working_file_system sample_summaries (Py.lit ".txt")).
  vm_compute. reflexivity.
Defined.

(** ** A page with a description section *)

Section PageSections.
Import Py indexer_vision Spec.

(** A text that starts with [p] across the end of [u] either has [p]
    within [u], or [u] is shorter than [p] and the rest of [p] follows. *)
Lemma startswith_app_cases (u v p : str) :
  startswith (u ++ v) p = true ->
  startswith u p = true \/
  ((length u < length p)%nat /\ startswith v (drop (length u) p) = true).
Proof.
  revert p. induction u as [|c u IH]; intros p Hp.
  - destruct p as [|d p]; [by left|]. right. split; [cbn; lia | done].
  - destruct p as [|d p]; [by left|]. cbn [app startswith] in Hp.
    apply andb_prop in Hp as [Hd Hp]. destruct (IH p Hp) as [Hu|[Hlen Hv]].
    + left. cbn [startswith]. by rewrite Hd, Hu.
    + right. split; [cbn [length]; lia | done].
Qed.

(** The heading marker does not start inside a text without it, whatever
    heading follows that text. *)
Lemma h4_not_across (t x : str) :
  t <> [] -> startswith t h4_marker = false ->
  startswith (t ++ h4_marker ++ x) h4_marker = false.
Proof.
  intros Hne Ht. destruct (startswith (t ++ h4_marker ++ x) h4_marker) eqn:Hs; [|done].
  apply startswith_app_cases in Hs as [Hs|[Hlen Hs]]; [congruence|].
  destruct t as [|c1 t]; [done|]. exfalso.
  destruct t as [|c2 [|c3 [|c4 [|c5 [|c6 t]]]]]; cbn in Hlen, Hs;
    first [discriminate Hs | lia].
Qed.

Lemma before_h4_app (main x : str) :
  contains main h4_marker = false ->
  before_h4 (main ++ h4_marker ++ x) = main.
Proof.
  induction main as [|c main IH]; intros Hno.
  - change ([] ++ h4_marker ++ x) with ("010"%char :: (lit "#### " ++ x)).
    cbn [before_h4].
    change ("010"%char :: (lit "#### " ++ x)) with (h4_marker ++ x).
    by rewrite startswith_app.
  - cbn [contains] in Hno. apply orb_false_elim in Hno as [Hhere Hrest].
    change ((c :: main) ++ h4_marker ++ x) with (c :: (main ++ h4_marker ++ x)).
    cbn [before_h4].
    change (c :: (main ++ h4_marker ++ x)) with ((c :: main) ++ h4_marker ++ x).
    rewrite h4_not_across by done. f_equal. by apply IH.
Qed.

Lemma startswith_ci_h4 (heading_text s : str) :
  startswith s h4_marker = false ->
  startswith_ci s (h4_marker ++ heading_text) = false.
Proof.
  intros Hs. destruct (startswith_ci s (h4_marker ++ heading_text)) eqn:Hci; [|done].
  unfold startswith_ci, lower in Hci. rewrite map_app in Hci.
  apply startswith_app_l in Hci.
  change (map lower_char h4_marker) with h4_marker in Hci.
  apply startswith_lower_marker in Hci; [congruence | done].
Qed.

Lemma search_section_eq (heading_text s : str) :
  search_section heading_text s
  = match (if startswith_ci s (h4_marker ++ heading_text)
           then after_blank_newline (drop (length (h4_marker ++ heading_text)) s)
           else None) with
    | Some body => Some (before_h4 body)
    | None =>
        match s with
        | [] => None
        | _ :: s' => search_section heading_text s'
        end
    end.
Proof. by destruct s. Qed.

(** What the greedy run of blanks up to a line feed passes over. *)
Lemma after_blank_newline_Some (s rest : str) :
  after_blank_newline s = Some rest ->
  exists lead, lead <> [] /\ s = lead ++ rest /\ forallb isspace lead = true.
Proof.
  revert rest. induction s as [|c s IH]; intros rest; cbn [after_blank_newline];
    [discriminate|].
  destruct (isspace c) eqn:Hc; [|discriminate].
  destruct (after_blank_newline s) as [r|] eqn:Hs.
  - intros [= <-]. destruct (IH r eq_refl) as (lead & _ & -> & Hlead).
    exists (c :: lead). split; [done|]. split; [done|]. cbn. by rewrite Hc.
  - destruct (Ascii.eqb c "010"); [|discriminate]. intros [= <-].
    exists [c]. split; [done|]. split; [done|]. cbn. by rewrite Hc.
Qed.

Lemma contains_suffix (a b sub : str) :
  contains (a ++ b) sub = false -> contains b sub = false.
Proof.
  induction a as [|c a IH]; [done|]. cbn [app contains].
  intros [_ H]%orb_false_elim. by apply IH.
Qed.

Lemma search_section_at (heading_text written main body : str) :
  contains main h4_marker = false ->
  contains body h4_marker = false ->
  lower written = lower heading_text ->
  exists lead rest,
    body = lead ++ rest /\ forallb isspace lead = true /\
    search_section heading_text (main ++ h4_marker ++ written ++ "010"%char :: body)
    = Some rest.
Proof.
  intros Hmain Hbody Hlower.
  assert (Hlen : length written = length heading_text).
  { apply (f_equal (@length ascii)) in Hlower. unfold lower in Hlower.
    by rewrite !length_map in Hlower. }
  induction main as [|c main IH].
  - cbn [app]. rewrite search_section_eq.
    assert (Hci : startswith_ci (h4_marker ++ written ++ "010"%char :: body)
                    (h4_marker ++ heading_text) = true).
    { unfold startswith_ci, lower. rewrite !map_app. fold (lower written).
      fold (lower heading_text). rewrite Hlower, app_assoc. apply startswith_app. }
    rewrite Hci.
    replace (length (h4_marker ++ heading_text)) with (length (h4_marker ++ written))
      by (rewrite !length_app; lia).
    rewrite app_assoc, drop_app_length.
    destruct (after_blank_newline ("010"%char :: body)) as [rest|] eqn:Hrest.
    + apply after_blank_newline_Some in Hrest as (lead & Hne & Hsplit & Hlead).
      destruct lead as [|d lead]; [done|]. injection Hsplit as <- ->.
      exists lead, rest. split; [done|]. split; [by apply andb_prop in Hlead as [_ ?]|].
      f_equal. apply before_h4_no_heading. by apply (contains_suffix lead).
    + exfalso. cbn in Hrest. by destruct (after_blank_newline body).
  - cbn [contains] in Hmain. apply orb_false_elim in Hmain as [Hhere Hrest].
    destruct (IH Hrest) as (lead & rest & Hsplit & Hlead & Hfound).
    exists lead, rest. split; [done|]. split; [done|].
    rewrite search_section_eq, startswith_ci_h4.
    + exact Hfound.
    + change ((c :: main) ++ h4_marker ++ written ++ "010"%char :: body)
        with ((c :: main) ++ h4_marker ++ (written ++ "010"%char :: body)).
      by apply h4_not_across.
Qed.

(** A page made of a main text and one description section, heading line
    in any letter case: the main text is what stands before the heading,
    trimmed, and the field of that heading is what stands after the heading
    line, trimmed. *)
Theorem page_with_section (written main body : str) :
  contains main h4_marker = false ->
  contains body h4_marker = false ->
  let page_content := main ++ h4_marker ++ written ++ lit nl ++ body in
  main_text (parse_vision_markdown_page page_content) = strip main /\
  (lower written = lower (lit "Visual Elements Description") ->
   visual_descriptions (parse_vision_markdown_page page_content) = strip body) /\
  (lower written = lower (lit "Table Content") ->
   table_descriptions (parse_vision_markdown_page page_content) = strip body) /\
  (lower written = lower (lit "Key Equations") ->
   equation_descriptions (parse_vision_markdown_page page_content) = strip body).
Proof.
  intros Hmain Hbody page_content. subst page_content.
  assert (Hfield : forall heading_text,
            lower written = lower heading_text ->
            section_text heading_text (main ++ h4_marker ++ written ++ lit nl ++ body)
            = strip body).
  { intros heading_text Hlower.
    destruct (search_section_at heading_text written main body Hmain Hbody Hlower)
      as (lead & rest & -> & Hlead & Hfound).
    unfold section_text. change (lit nl ++ lead ++ rest) with ("010"%char :: lead ++ rest).
    rewrite Hfound. unfold strip, strip_by. by rewrite lstrip_by_app_all. }
  split; [|split; [|split]].
  - cbn [parse_vision_markdown_page main_text]. by rewrite before_h4_app.
  - apply Hfield.
  - apply Hfield.
  - apply Hfield.
Qed.

End PageSections.

Lemma page_with_section_witness :
  main_text (parse_vision_markdown_page
               (Py.lit "Heat and work. " ++ h4_marker ++ Py.lit "KEY equations"
                ++ Py.lit nl ++ Py.lit (" " ++ nl ++ "dU = dQ - dW" ++ nl)))
  = Py.lit "Heat and work." /\
  equation_descriptions
    (parse_vision_markdown_page
       (Py.lit "Heat and work. " ++ h4_marker ++ Py.lit "KEY equations"
        ++ Py.lit nl ++ Py.lit (" " ++ nl ++ "dU = dQ - dW" ++ nl)))
  = Py.lit "dU = dQ - dW".
Proof.
  destruct (page_with_section (Py.lit "KEY equations") (Py.lit "Heat and work. ")
              (Py.lit (" " ++ nl ++ "dU = dQ - dW" ++ nl)))
    as (Hmain & _ & _ & Heq); [vm_compute; reflexivity | vm_compute; reflexivity |].
  split.
  - rewrite Hmain. vm_compute. reflexivity.
  - rewrite Heq by (vm_compute; reflexivity). vm_compute. reflexivity.
Defined.

(** ** Splitting a file at a page marker *)

Section PageMarkers.
Import Py indexer_vision Spec.

(** The opening of a page marker does not start inside a text without it,
    whatever marker follows that text. *)
Lemma marker_not_across (t x : str) :
  t <> [] -> startswith t page_marker_open = false ->
  startswith (t ++ page_marker_open ++ x) page_marker_open = false.
Proof.
  intros Hne Ht.
  destruct (startswith (t ++ page_marker_open ++ x) page_marker_open) eqn:Hs; [|done].
  apply startswith_app_cases in Hs as [Hs|[Hlen Hs]]; [congruence|]. exfalso.
  change (length page_marker_open) with 12%nat in Hlen.
  remember (length t) as k eqn:Hk. destruct k as [|k]; [by destruct t|].
  do 11 (destruct k as [|k]; [cbn in Hs; discriminate Hs|]). lia.
Qed.

Lemma page_marker_length_at (digits rest : str) :
  digits <> [] -> forallb isdigit digits = true ->
  page_marker_length (page_marker_open ++ digits ++ page_marker_close ++ rest)
  = Some (length (page_marker_open ++ digits ++ page_marker_close)).
Proof.
  intros Hne Hdigits. unfold page_marker_length.
  rewrite startswith_app, drop_app_length.
  rewrite lstrip_by_app_all by done.
  rewrite (lstrip_by_id isdigit (page_marker_close ++ rest)) by (by intros c [= <-]).
  replace (length (digits ++ page_marker_close ++ rest)
           - length (page_marker_close ++ rest))%nat
    with (length digits) by (rewrite !length_app; lia).
  rewrite drop_app_length, startswith_app.
  destruct digits as [|d digits]; [done|]. cbn [length Nat.leb andb].
  f_equal. rewrite !length_app. cbn [length]. lia.
Qed.

Lemma split_pages_aux_skip (m b cur : str) :
  split_pages_aux (m ++ b) cur (length m) = split_pages_aux b cur 0.
Proof.
  induction m as [|c m IH]; [|exact IH].
  cbn [app length]. by destruct b.
Qed.

Lemma split_pages_aux_at (title digits rest : str) :
  contains title page_marker_open = false ->
  digits <> [] -> forallb isdigit digits = true ->
  forall cur,
    split_pages_aux (title ++ page_marker_open ++ digits ++ page_marker_close ++ rest) cur 0
    = (rev cur ++ title) :: split_pages_aux rest [] 0.
Proof.
  intros Htitle Hne Hdigits.
  induction title as [|c title IH]; intros cur.
  - cbn [app]. rewrite app_nil_r.
    pose proof (page_marker_length_at digits rest Hne Hdigits) as Hm.
    change (page_marker_open ++ digits ++ page_marker_close ++ rest)
      with ("010"%char :: (lit (nl ++ "<!-- Page ") ++ digits ++ page_marker_close ++ rest))
      in *.
    cbn [split_pages_aux]. rewrite Hm.
    change (length (page_marker_open ++ digits ++ page_marker_close))
      with (S (length (lit (nl ++ "<!-- Page ") ++ digits ++ page_marker_close))).
    cbv iota beta. f_equal.
    rewrite !(app_assoc _ _ rest), (app_assoc _ digits).
    rewrite <- (app_assoc _ digits page_marker_close).
    apply split_pages_aux_skip.
  - cbn [contains] in Htitle. apply orb_false_elim in Htitle as [Hhere Hrest].
    change ((c :: title) ++ page_marker_open ++ digits ++ page_marker_close ++ rest)
      with (c :: (title ++ page_marker_open ++ digits ++ page_marker_close ++ rest)).
    cbn [split_pages_aux]. unfold page_marker_length.
    change (c :: (title ++ page_marker_open ++ digits ++ page_marker_close ++ rest))
      with ((c :: title) ++ page_marker_open ++ (digits ++ page_marker_close ++ rest)).
    rewrite marker_not_across by done.
    rewrite (IH Hrest). cbn [rev]. by rewrite <- app_assoc.
Qed.

(** A file is cut at its first page marker: the text before the marker, if
    it holds no opening of a marker, is the first segment, the marker is
    dropped, and the rest of the file is split in the same way. *)
Theorem split_pages_at_marker (title digits rest : str) :
  contains title page_marker_open = false ->
  digits <> [] -> forallb isdigit digits = true ->
  split_pages (title ++ page_marker_open ++ digits ++ page_marker_close ++ rest)
  = title :: split_pages rest.
Proof.
  intros Htitle Hne Hdigits. unfold split_pages.
  by rewrite split_pages_aux_at.
Qed.

End PageMarkers.

Lemma split_pages_at_marker_witness :
  split_pages (Py.lit "lec" ++ page_marker_open ++ Py.lit "12" ++ page_marker_close
               ++ Py.lit ("Hello" ++ nl ++ nl ++ "<!-- Page x"))
  = [Py.lit "lec"; Py.lit ("Hello" ++ nl ++ nl ++ "<!-- Page x")].
Proof.
  rewrite (split_pages_at_marker (Py.lit "lec") (Py.lit "12")
             (Py.lit ("Hello" ++ nl ++ nl ++ "<!-- Page x")));
    [|vm_compute; reflexivity|discriminate|vm_compute; reflexivity].
  vm_compute. reflexivity.
Defined.
